(** * Sequential Neural Likelihood: the round loop, the early-stopped
      trainer and the potential-function provider of [sbi/inference/snl/snl.py]

    The development follows the source file top to bottom.  Python floats are
    IEEE binary64 values, modelled with the Standard Library's [spec_float]
    (sign, mantissa, exponent) and its software arithmetic; Python ints are
    [Z]; lists are [list]; everything the file calls but does not define
    (the network, the optimizer, the simulator, torch's random permutation)
    is a [Variable] of a [Section]. *)

From Stdlib Require Import String ZArith List Bool Lia Permutation.
From Stdlib Require Import Floats.SpecFloat.
Import ListNotations.

Local Open Scope Z_scope.

(* ------------------------------------------------------------------ *)
(** ** Python floats *)

Module Binary64.

Definition prec : Z := 53.
Definition emax : Z := 1024.

Definition float := spec_float.

Definition fadd : float -> float -> float := SFadd prec emax.
Definition fsub : float -> float -> float := SFsub prec emax.
Definition fmul : float -> float -> float := SFmul prec emax.
Definition fdiv : float -> float -> float := SFdiv prec emax.

(** [a > b] on floats; false as soon as one side is NaN. *)
Definition fgt (a b : float) : bool := SFltb b a.

(** Conversion of a Python int in an arithmetic expression with a float
    (round to nearest, ties to even). *)
Definition float_of_int (n : Z) : float := binary_normalize prec emax n 0 false.

(** The literals of the source. *)
Definition neg_1e100 : float := S754_finite true 5147557589468029 280.
Definition lit_0_1 : float := S754_finite false 7205759403792794 (-56).
Definition lit_5e_4 : float := S754_finite false 4611686018427388 (-63).

(** The integer part of [+-m * 2^e], toward zero. *)
Definition truncate (s : bool) (m : positive) (e : Z) : Z :=
  let a := match e with
           | Zneg p => Z.shiftr (Zpos m) (Zpos p)
           | _ => Z.shiftl (Zpos m) e
           end in
  if s then - a else a.

(** What one [spec_float] must satisfy to have at most 53 mantissa bits and
    an exponent in the binary64 range.  Every valid binary64 value does. *)
Definition in_range (x : float) : bool :=
  match x with
  | S754_finite _ m e =>
      (Zpos m <? 2 ^ prec) && (emin prec emax <=? e) && (e <=? emax - prec)
  | _ => true
  end.

(** An order-preserving numbering of the non-NaN values. *)
Definition rank_top : Z := 2047 * 2 ^ 53.

Definition rank (x : float) : Z :=
  match x with
  | S754_zero _ | S754_nan => 0
  | S754_infinity s => if s then - rank_top else rank_top
  | S754_finite s m e =>
      let r := (e - emin prec emax) * 2 ^ 53 + Zpos m in
      if s then - r else r
  end.

(** *** The numbering is monotone and bounded *)

Lemma digits2_pos_bound (m : positive) : Zpos m < 2 ^ Zpos (digits2_pos m).
Proof.
  induction m as [m IH | m IH |]; cbn [digits2_pos].
  - rewrite Pos2Z.inj_succ, Z.pow_succ_r by lia. lia.
  - rewrite Pos2Z.inj_succ, Z.pow_succ_r by lia. lia.
  - reflexivity.
Qed.

Lemma in_range_finite s m e :
  in_range (S754_finite s m e) = true ->
  0 < Zpos m < 2 ^ 53 /\ -1074 <= e <= 971.
Proof.
  unfold in_range, prec, emax, emin.
  rewrite !andb_true_iff, !Z.leb_le, Z.ltb_lt. lia.
Qed.

Lemma rank_bounds (x : float) :
  in_range x = true -> - rank_top <= rank x <= rank_top.
Proof.
  destruct x as [s | s | | s m e]; intros H.
  - cbn. unfold rank_top. lia.
  - destruct s; cbn; unfold rank_top; lia.
  - cbn. unfold rank_top. lia.
  - apply in_range_finite in H. unfold rank, rank_top, emin, prec, emax.
    destruct s; nia.
Qed.

Lemma rank_finite_pos s m e :
  in_range (S754_finite s m e) = true ->
  0 < (e - emin prec emax) * 2 ^ 53 + Zpos m < rank_top.
Proof.
  intros H. apply in_range_finite in H.
  unfold rank_top, emin, prec, emax. nia.
Qed.

Definition is_nan (x : float) : bool :=
  match x with S754_nan => true | _ => false end.

Lemma SFcompare_rank (a b : float) :
  in_range a = true -> in_range b = true ->
  is_nan a = false -> is_nan b = false ->
  SFcompare a b = Some (rank a ?= rank b).
Proof.
  destruct a as [sa | sa | | sa ma ea]; destruct b as [sb | sb | | sb mb eb];
    intros Ha Hb Na Nb; try discriminate; cbn [SFcompare rank];
    try reflexivity; apply f_equal; symmetry.
  - destruct sb; [apply Z.compare_gt_iff | apply Z.compare_lt_iff];
      unfold rank_top; lia.
  - pose proof (rank_finite_pos _ _ _ Hb).
    destruct sb; [apply Z.compare_gt_iff | apply Z.compare_lt_iff]; lia.
  - destruct sa; [apply Z.compare_lt_iff | apply Z.compare_gt_iff];
      unfold rank_top; lia.
  - destruct sa, sb;
      [apply Z.compare_eq_iff | apply Z.compare_lt_iff
       | apply Z.compare_gt_iff | apply Z.compare_eq_iff];
      unfold rank_top; lia.
  - pose proof (rank_finite_pos _ _ _ Hb).
    destruct sa, sb; [apply Z.compare_lt_iff | apply Z.compare_lt_iff
                      | apply Z.compare_gt_iff | apply Z.compare_gt_iff]; lia.
  - pose proof (rank_finite_pos _ _ _ Ha).
    destruct sa; [apply Z.compare_lt_iff | apply Z.compare_gt_iff]; lia.
  - pose proof (rank_finite_pos _ _ _ Ha).
    destruct sa, sb; [apply Z.compare_gt_iff | apply Z.compare_lt_iff
                      | apply Z.compare_gt_iff | apply Z.compare_lt_iff]; lia.
  - pose proof (rank_finite_pos _ _ _ Ha) as Pa.
    pose proof (rank_finite_pos _ _ _ Hb) as Pb.
    apply in_range_finite in Ha. apply in_range_finite in Hb.
    assert (K : forall m1 e1 m2 e2,
               0 < Zpos m1 < 2 ^ 53 -> 0 < Zpos m2 < 2 ^ 53 ->
               ((e1 - emin prec emax) * 2 ^ 53 + Zpos m1
                ?= (e2 - emin prec emax) * 2 ^ 53 + Zpos m2)
               = match e1 ?= e2 with
                 | Lt => Lt | Gt => Gt | Eq => Pos.compare_cont Eq m1 m2
                 end).
    { intros m1 e1 m2 e2 H1 H2.
      destruct (Z.compare_spec e1 e2) as [He | He | He].
      - subst e2. change (Pos.compare_cont Eq m1 m2) with (Pos.compare m1 m2).
        rewrite Z.add_compare_mono_l. reflexivity.
      - apply Z.compare_lt_iff. nia.
      - apply Z.compare_gt_iff. nia. }
    destruct sa, sb.
    + rewrite Z.compare_opp, K by lia.
      rewrite (Z.compare_antisym ea eb).
      change (Pos.compare_cont Eq mb ma) with (Pos.compare mb ma).
      change (Pos.compare_cont Eq ma mb) with (Pos.compare ma mb).
      rewrite (Pos.compare_antisym ma mb).
      destruct (ea ?= eb); reflexivity.
    + apply Z.compare_lt_iff. lia.
    + apply Z.compare_gt_iff. lia.
    + apply K; lia.
Qed.

Lemma SFltb_nan_r (a : float) : SFltb a S754_nan = false.
Proof. destruct a; reflexivity. Qed.

Lemma SFltb_true_not_nan (a b : float) :
  SFltb a b = true -> is_nan a = false /\ is_nan b = false.
Proof.
  destruct a, b; cbn; try discriminate; auto.
Qed.

Lemma SFltb_rank (a b : float) :
  in_range a = true -> in_range b = true ->
  is_nan a = false -> is_nan b = false ->
  SFltb a b = (rank a <? rank b).
Proof.
  intros Ha Hb Na Nb. unfold SFltb, Z.ltb.
  rewrite (SFcompare_rank a b Ha Hb Na Nb). reflexivity.
Qed.

Lemma rank_lt (a b : float) :
  in_range a = true -> in_range b = true ->
  SFltb a b = true -> rank a < rank b.
Proof.
  intros Ha Hb H. destruct (SFltb_true_not_nan _ _ H) as [Na Nb].
  rewrite (SFltb_rank a b Ha Hb Na Nb) in H. apply Z.ltb_lt. exact H.
Qed.

Lemma fgt_irrefl (v : float) : fgt v v = false.
Proof.
  unfold fgt, SFltb. destruct v as [s | s | | s m e]; cbn [SFcompare];
    try reflexivity.
  - destruct s; reflexivity.
  - rewrite Z.compare_refl.
    change (Pos.compare_cont Eq m m) with (Pos.compare m m).
    rewrite Pos.compare_refl. destruct s; reflexivity.
Qed.

(** A score that did not beat [b] does not beat what beat [b]. *)
Lemma not_above_later_best (b s v : float) :
  in_range b = true -> in_range s = true -> in_range v = true ->
  SFltb b s = false -> SFltb b v = true -> SFltb v s = false.
Proof.
  intros Hb Hs Hv Hbs Hbv.
  destruct (SFltb_true_not_nan _ _ Hbv) as [Nb Nv].
  destruct (is_nan s) eqn:Ns.
  - destruct s; try discriminate. apply SFltb_nan_r.
  - rewrite SFltb_rank in * by assumption.
    rewrite Z.ltb_lt in Hbv. rewrite Z.ltb_ge in *. lia.
Qed.

(** ... and, unless it is NaN, lies strictly below it. *)
Lemma below_later_best (b s v : float) :
  in_range b = true -> in_range s = true -> in_range v = true ->
  SFltb b s = false -> SFltb b v = true -> is_nan s = false ->
  SFltb s v = true.
Proof.
  intros Hb Hs Hv Hbs Hbv Ns.
  destruct (SFltb_true_not_nan _ _ Hbv) as [Nb Nv].
  rewrite SFltb_rank in * by assumption.
  rewrite Z.ltb_lt in *. rewrite Z.ltb_ge in Hbs. lia.
Qed.

(** *** Rounding lands in range

    [binary_round_aux] shifts the mantissa right until it has at most [prec]
    bits, whatever it is given; so every quotient computed by [fdiv] is
    [in_range], also when the operands are not. *)

Lemma shr_record_of_loc_m m l : shr_m (shr_record_of_loc m l) = m.
Proof. destruct l as [| []]; reflexivity. Qed.

Lemma shr_1_m mrs :
  0 <= shr_m mrs -> shr_m (shr_1 mrs) = Z.div2 (shr_m mrs).
Proof.
  destruct mrs as [m r s]; cbn [shr_m].
  destruct m as [| [p | p |] | p]; intros H; try reflexivity; lia.
Qed.

Lemma iter_shr_1_m p : forall mrs,
  0 <= shr_m mrs ->
  shr_m (iter_pos shr_1 p mrs) = Z.shiftr (shr_m mrs) (Zpos p).
Proof.
  induction p as [p IH | p IH |]; intros mrs H; cbn [iter_pos].
  - assert (H1 : 0 <= shr_m (shr_1 mrs))
      by (rewrite shr_1_m by exact H; apply Z.div2_nonneg; exact H).
    assert (H2 : 0 <= shr_m (iter_pos shr_1 p (shr_1 mrs)))
      by (rewrite IH by exact H1; apply Z.shiftr_nonneg; exact H1).
    rewrite IH by exact H2. rewrite IH by exact H1.
    rewrite shr_1_m by exact H. rewrite Z.div2_spec.
    rewrite !Z.shiftr_shiftr by lia. f_equal. lia.
  - assert (H2 : 0 <= shr_m (iter_pos shr_1 p mrs))
      by (rewrite IH by exact H; apply Z.shiftr_nonneg; exact H).
    rewrite IH by exact H2. rewrite IH by exact H.
    rewrite Z.shiftr_shiftr by lia. f_equal. lia.
  - rewrite shr_1_m by exact H. apply Z.div2_spec.
Qed.

Lemma Zdigits2_bound m : 0 <= m -> m < 2 ^ Zdigits2 m.
Proof.
  destruct m as [| p | p]; intros H; cbn [Zdigits2]; try lia.
  apply digits2_pos_bound.
Qed.

Lemma Zdigits2_nonneg m : 0 <= Zdigits2 m.
Proof. destruct m; cbn; lia. Qed.

Lemma shr_fexp_range m e l :
  0 <= m ->
  0 <= shr_m (fst (shr_fexp prec emax m e l)) < 2 ^ prec
  /\ emin prec emax <= snd (shr_fexp prec emax m e l).
Proof.
  intros Hm. unfold shr_fexp, shr.
  pose proof (Zdigits2_bound m Hm) as Hd.
  pose proof (Zdigits2_nonneg m) as Hd0.
  set (d := Zdigits2 m) in *.
  assert (Hf : d + e - prec <= fexp prec emax (d + e)
               /\ emin prec emax <= fexp prec emax (d + e))
    by (unfold fexp; lia).
  destruct (fexp prec emax (d + e) - e) as [| n | n] eqn:En;
    cbn [fst snd]; rewrite ?shr_record_of_loc_m.
  - assert (2 ^ d <= 2 ^ prec)
      by (apply Z.pow_le_mono_r; unfold prec in *; lia).
    lia.
  - rewrite iter_shr_1_m by (rewrite shr_record_of_loc_m; exact Hm).
    rewrite shr_record_of_loc_m, Z.shiftr_div_pow2 by lia.
    split; [split |]; try lia.
    + apply Z.div_pos; [exact Hm | apply Z.pow_pos_nonneg; lia].
    + apply Z.div_lt_upper_bound; [apply Z.pow_pos_nonneg; lia |].
      rewrite <- Z.pow_add_r by (unfold prec; lia).
      assert (2 ^ d <= 2 ^ (Zpos n + prec))
        by (apply Z.pow_le_mono_r; unfold prec in *; lia).
      lia.
  - assert (2 ^ d <= 2 ^ prec)
      by (apply Z.pow_le_mono_r; unfold prec in *; lia).
    lia.
Qed.

Lemma round_nearest_even_nonneg m l : 0 <= m -> 0 <= round_nearest_even m l.
Proof.
  intros H. unfold round_nearest_even.
  destruct l as [| []]; try destruct (Z.even m); lia.
Qed.

Lemma binary_round_aux_in_range s m e l :
  0 <= m -> in_range (binary_round_aux prec emax s m e l) = true.
Proof.
  intros Hm. unfold binary_round_aux.
  pose proof (shr_fexp_range m e l Hm) as [[H1 _] _].
  destruct (shr_fexp prec emax m e l) as [mrs1 e1]; cbn [fst snd] in H1.
  pose proof (shr_fexp_range
                (round_nearest_even (shr_m mrs1) (loc_of_shr_record mrs1))
                e1 loc_Exact (round_nearest_even_nonneg _ _ H1)) as [H2 H3].
  destruct (shr_fexp prec emax _ e1 loc_Exact) as [mrs2 e2];
    cbn [fst snd] in H2, H3.
  destruct (shr_m mrs2) as [| p | p]; try reflexivity.
  destruct (e2 <=? emax - prec) eqn:He; try reflexivity.
  cbn [in_range]. rewrite He.
  rewrite !andb_true_iff, Z.ltb_lt, Z.leb_le. lia.
Qed.

Lemma fdiv_in_range (x y : float) : in_range (fdiv x y) = true.
Proof.
  unfold fdiv, SFdiv.
  destruct x as [sx | sx | | sx mx ex]; destruct y as [sy | sy | | sy my ey];
    try reflexivity.
  unfold SFdiv_core_binary.
  match goal with
  | |- context [Z.div_eucl ?a ?b] =>
      pose proof (Z.div_eucl_eq a b ltac:(lia)) as Hq;
      pose proof (Z.mod_pos_bound a b ltac:(lia)) as Hr;
      assert (Ha : 0 <= a); [| unfold Z.modulo in Hr;
      destruct (Z.div_eucl a b) as [q r] ]
  end.
  - destruct (_ - _ - _) as [| n | n]; try lia.
    apply Z.shiftl_nonneg. lia.
  - apply binary_round_aux_in_range. nia.
Qed.

Lemma SFltb_trans (a b c : float) :
  in_range a = true -> in_range b = true -> in_range c = true ->
  SFltb a b = true -> SFltb b c = true -> SFltb a c = true.
Proof.
  intros Ha Hb Hc Hab Hbc.
  destruct (SFltb_true_not_nan _ _ Hab) as [Na Nb].
  destruct (SFltb_true_not_nan _ _ Hbc) as [_ Nc].
  rewrite SFltb_rank in * by assumption.
  rewrite Z.ltb_lt in *. lia.
Qed.

End Binary64.

(* ------------------------------------------------------------------ *)
(** ** Exceptions and tensors *)

(** The exceptions the modelled lines can raise, named after the Python
    exception and the call that raises it. *)
Inductive exn : Type :=
| RuntimeError_cat            (* torch.cat of an empty or ill-shaped list *)
| ValueError_int_nan          (* int(nan) *)
| OverflowError_int_inf       (* int(inf) *)
| AssertionError_dataset      (* TensorDataset: first dimensions differ *)
| ValueError_batch_size       (* DataLoader: batch_size <= 0 *)
| ZeroDivisionError           (* x / 0 *)
| AttributeError_load_none    (* load_state_dict(None) *)
| StopIteration.              (* next() of an exhausted iterator *)

(** A computation that returns a value or raises. *)
Inductive result (A : Type) : Type :=
| Ok (a : A)
| Raise (e : exn).
Arguments Ok {A} a.
Arguments Raise {A} e.

Definition bind {A B : Type} (r : result A) (k : A -> result B) : result B :=
  match r with
  | Ok a => k a
  | Raise e => Raise e
  end.

Notation "x <- r ;; k" := (bind r (fun x => k))
  (at level 61, r at next level, right associativity).

Module Torch.

(** A tensor: its shape and its elements in row-major order. *)
Record tensor (elt : Type) : Type := mkTensor
  { shape : list nat;
    data : list elt }.
Arguments mkTensor {elt} shape data.
Arguments shape {elt} t.
Arguments data {elt} t.

Section Ops.
Context {elt : Type}.

(** [t.shape[0]] of a tensor with one dimension at least. *)
Definition rows (t : tensor elt) : nat := hd 0%nat (shape t).

Definition same_trailing (t u : tensor elt) : bool :=
  if list_eq_dec Nat.eq_dec (tl (shape t)) (tl (shape u)) then true else false.

(** A one-dimensional tensor with no element, shape [(0,)]: [torch.cat]
    leaves these out, whatever the shapes of the others. *)
Definition legacy_empty (t : tensor elt) : bool :=
  match shape t with
  | [O] => true
  | _ => false
  end.

(** [torch.cat(ts)] along dimension 0: the list must not be empty; of the
    tensors that are not left out none may be zero-dimensional and all must
    agree on the dimensions after the first. *)
Definition cat (ts : list (tensor elt)) : result (tensor elt) :=
  match ts with
  | [] => Raise RuntimeError_cat
  | _ :: _ =>
      match filter (fun u => negb (legacy_empty u)) ts with
      | [] => Ok (mkTensor [0%nat] [])
      | t :: rest =>
          if forallb (fun u => negb (Nat.eqb (length (shape u)) 0)
                               && same_trailing t u) (t :: rest)
          then Ok (mkTensor
                     (fold_right (fun u n => (rows u + n)%nat) 0%nat
                        (t :: rest)
                      :: tl (shape t))
                     (concat (map data (t :: rest))))
          else Raise RuntimeError_cat
      end
  end.

(** [t.reshape(1, -1)]: one row holding all the elements; a tensor with no
    element becomes one of shape [(1, 0)]. *)
Definition reshape_row (t : tensor elt) : tensor elt :=
  mkTensor [1%nat; length (data t)] (data t).

Lemma rows_without_legacy_empty (ts : list (tensor elt)) :
  fold_right (fun u n => (rows u + n)%nat) 0%nat
    (filter (fun u => negb (legacy_empty u)) ts)
  = fold_right (fun u n => (rows u + n)%nat) 0%nat ts.
Proof.
  induction ts as [| t ts IH]; [reflexivity |].
  cbn [filter fold_right]. destruct (legacy_empty t) eqn:E; cbn [negb].
  - rewrite IH. unfold legacy_empty in E. unfold rows.
    destruct (shape t) as [| [| d] [| d' sh]]; try discriminate.
    reflexivity.
  - cbn [fold_right]. rewrite IH. reflexivity.
Qed.

(** The rows of a concatenation add up. *)
Lemma cat_rows (ts : list (tensor elt)) (p : tensor elt) :
  cat ts = Ok p ->
  rows p = fold_right (fun u n => (rows u + n)%nat) 0%nat ts.
Proof.
  unfold cat. destruct ts as [| t0 ts0]; [discriminate |].
  rewrite <- (rows_without_legacy_empty (t0 :: ts0)).
  destruct (filter _ (t0 :: ts0)) as [| t rest].
  - intros H. injection H as <-. reflexivity.
  - destruct (forallb _ (t :: rest)); [| discriminate].
    intros H. injection H as <-. reflexivity.
Qed.

Lemma cat_rows_uniform (ts : list (tensor elt)) (p : tensor elt) (n : nat) :
  cat ts = Ok p -> Forall (fun t => rows t = n) ts ->
  rows p = (length ts * n)%nat.
Proof.
  intros H F. rewrite (cat_rows _ _ H). clear H.
  induction F as [| t ts Ht _ IH]; cbn; [reflexivity |].
  rewrite Ht, IH. reflexivity.
Qed.

End Ops.
End Torch.

(* ------------------------------------------------------------------ *)
(** ** The train/validation split of [_fit_likelihood] (lines 214-224) *)

Module Split.
Import Binary64.

(** Python slices [xs[:k]] and [xs[k:]]; a negative [k] counts from the end. *)
Definition slice_stop {A : Type} (k : Z) (xs : list A) : nat :=
  if k <? 0 then Z.to_nat (Z.max 0 (Z.of_nat (length xs) + k)) else Z.to_nat k.

Definition slice_to {A : Type} (k : Z) (xs : list A) : list A :=
  firstn (slice_stop k xs) xs.

Definition slice_from {A : Type} (k : Z) (xs : list A) : list A :=
  skipn (slice_stop k xs) xs.

(** [int(x)] with its two exceptions. *)
Definition py_int (x : float) : result Z :=
  match x with
  | S754_nan => Raise ValueError_int_nan
  | S754_infinity _ => Raise OverflowError_int_inf
  | S754_zero _ => Ok 0
  | S754_finite s m e => Ok (truncate s m e)
  end.

(** [int((1 - validation_fraction) * num_examples)] *)
Definition training_count (validation_fraction : float) (num_examples : Z)
  : result Z :=
  py_int (fmul (fsub (float_of_int 1) validation_fraction)
               (float_of_int num_examples)).

Record split : Type := mkSplit
  { num_training_examples : Z;
    num_validation_examples : Z;
    train_indices : list nat;
    val_indices : list nat }.

Definition make_split (validation_fraction : float) (num_examples : Z)
  (permuted_indices : list nat) : result split :=
  k <- training_count validation_fraction num_examples ;;
  Ok (mkSplit k (num_examples - k)
              (slice_to k permuted_indices) (slice_from k permuted_indices)).

(** The spec's wording of the training-split size:
    [round((1 - validationFraction) * N)], to the nearest integer with
    ties to even. *)
Definition round_of_float (x : float) : option Z :=
  match x with
  | S754_zero _ => Some 0
  | S754_finite s m e =>
      let a := match e with
               | Zneg p =>
                   let q := Z.shiftr (Zpos m) (Zpos p) in
                   let r := Zpos m - Z.shiftl q (Zpos p) in
                   match 2 * r ?= 2 ^ Zpos p with
                   | Lt => q
                   | Gt => q + 1
                   | Eq => if Z.even q then q else q + 1
                   end
               | _ => Z.shiftl (Zpos m) e
               end in
      Some (if s then - a else a)
  | S754_infinity _ | S754_nan => None
  end.

Definition spec_training_count (validationFraction : float) (N : Z)
  : option Z :=
  round_of_float (fmul (fsub (float_of_int 1) validationFraction)
                       (float_of_int N)).

(** The spec's wording of the degenerate case: [validationFraction * N < 1]. *)
Definition spec_degenerate (validationFraction : float) (N : Z) : bool :=
  SFltb (fmul validationFraction (float_of_int N)) (float_of_int 1).

(** *** Facts about the split *)

Lemma slice_to_from {A : Type} (k : Z) (xs : list A) :
  slice_to k xs ++ slice_from k xs = xs.
Proof. apply firstn_skipn. Qed.

(** [int(x)] drops the fraction: for [x = +-m * 2^e] with [e < 0] its
    magnitude is the quotient of [m] by [2^(-e)]. *)
Lemma py_int_truncates (s : bool) (m : positive) (e z : Z) :
  e < 0 -> py_int (S754_finite s m e) = Ok z ->
  Z.abs z = Zpos m / 2 ^ (- e) /\ (if s then z <= 0 else 0 <= z).
Proof.
  intros He. destruct e as [| e | e]; try lia. cbn [py_int].
  intros H. injection H as <-. unfold truncate.
  rewrite Z.shiftr_div_pow2 by lia. change (- Zneg e) with (Zpos e).
  assert (0 <= Zpos m / 2 ^ Zpos e)
    by (apply Z.div_pos; [lia | apply Z.pow_pos_nonneg; lia]).
  destruct s; split; lia.
Qed.

(** C7, as the code has it.  For any permutation of the indices [0..N-1]
    the training split is its first [k] entries and the validation split
    the rest, where [k = int((1 - validation_fraction) * N)] - the product
    truncated toward zero, not rounded - and the two splits together are
    the permutation again. *)
Theorem split_takes_truncated_prefix (validation_fraction : float) (N : nat)
  (permuted_indices : list nat) (k : Z) :
  Permutation permuted_indices (seq 0 N) ->
  training_count validation_fraction (Z.of_nat N) = Ok k ->
  0 <= k ->
  exists sp,
    make_split validation_fraction (Z.of_nat N) permuted_indices = Ok sp
    /\ num_training_examples sp = k
    /\ num_validation_examples sp = Z.of_nat N - k
    /\ train_indices sp = firstn (Z.to_nat k) permuted_indices
    /\ val_indices sp = skipn (Z.to_nat k) permuted_indices
    /\ Permutation (train_indices sp ++ val_indices sp) (seq 0 N)
    /\ (k <= Z.of_nat N ->
        Z.of_nat (length (train_indices sp)) = k
        /\ Z.of_nat (length (val_indices sp)) = Z.of_nat N - k).
Proof.
  intros Hperm Hk Hpos. unfold make_split. rewrite Hk. cbn [bind].
  eexists. split; [reflexivity |].
  cbn [num_training_examples num_validation_examples train_indices
       val_indices].
  unfold slice_to, slice_from, slice_stop.
  destruct (Z.ltb_spec k 0) as [Hneg | _]; [lia |].
  split; [reflexivity |]. split; [reflexivity |].
  split; [reflexivity |]. split; [reflexivity |].
  split; [rewrite firstn_skipn; exact Hperm |].
  intros Hle.
  assert (Hlen : length permuted_indices = N)
    by (rewrite (Permutation_length Hperm); apply length_seq).
  rewrite length_firstn, length_skipn, Hlen. lia.
Qed.

(** With 12 examples and the default fraction 0.1 the product is 10.8: the
    code trains on 10 examples where [round] would give 11. *)
Lemma split_is_not_rounded :
  exists sp r,
    make_split lit_0_1 12 (seq 0 12) = Ok sp
    /\ spec_training_count lit_0_1 12 = Some r
    /\ r = 11 /\ num_training_examples sp = 10
    /\ train_indices sp <> firstn (Z.to_nat r) (seq 0 12).
Proof.
  eexists. exists 11.
  split; [vm_compute; reflexivity |].
  split; [vm_compute; reflexivity |].
  split; [reflexivity |]. split; [reflexivity |].
  vm_compute. discriminate.
Qed.

(** *** Further facts about the split *)

Lemma NoDup_app_disjoint {A : Type} (xs ys : list A) :
  NoDup (xs ++ ys) -> forall a, In a xs -> ~ In a ys.
Proof.
  induction xs as [| x xs IH]; cbn; intros H a Ha Hy; [contradiction |].
  inversion H as [| ? ? Hx Hrest]; subst.
  destruct Ha as [-> | Ha].
  - apply Hx. apply in_or_app. right. exact Hy.
  - exact (IH Hrest a Ha Hy).
Qed.

(** X1.  Whatever the validation fraction - also one above 1, which makes
    the training count negative and the slices count from the end - the two
    splits are disjoint and every index [0..N-1] is in exactly one of
    them. *)
Theorem split_partitions_indices (validation_fraction : float) (N : nat)
  (permuted_indices : list nat) (sp : split) :
  Permutation permuted_indices (seq 0 N) ->
  make_split validation_fraction (Z.of_nat N) permuted_indices = Ok sp ->
  train_indices sp ++ val_indices sp = permuted_indices
  /\ NoDup (train_indices sp ++ val_indices sp)
  /\ (forall i, In i (train_indices sp) -> ~ In i (val_indices sp))
  /\ (forall i, (i < N)%nat <->
                In i (train_indices sp) \/ In i (val_indices sp)).
Proof.
  intros Hperm. unfold make_split.
  destruct (training_count validation_fraction (Z.of_nat N)) as [k | e];
    [| discriminate].
  cbn [bind]. intros H. injection H as <-.
  cbn [train_indices val_indices].
  assert (Hnd : NoDup (slice_to k permuted_indices
                       ++ slice_from k permuted_indices)).
  { rewrite slice_to_from.
    apply (Permutation_NoDup (Permutation_sym Hperm)). apply seq_NoDup. }
  split; [apply slice_to_from |]. split; [exact Hnd |].
  split; [apply NoDup_app_disjoint; exact Hnd |].
  intros i. rewrite <- in_app_iff, slice_to_from. split; intros Hi.
  - apply (Permutation_in _ (Permutation_sym Hperm)).
    apply in_seq. lia.
  - apply (Permutation_in _ Hperm) in Hi. apply in_seq in Hi. lia.
Qed.

(** X2.  With a negative training count [k] (a validation fraction above 1)
    the validation split holds the last [min(N, -k)] indices, while the count
    the validation mean is divided by is [N - k]: larger than the split, as
    soon as there is one example. *)
Theorem negative_count_overstates_validation (validation_fraction : float)
  (N : nat) (permuted_indices : list nat) (sp : split) :
  length permuted_indices = N ->
  make_split validation_fraction (Z.of_nat N) permuted_indices = Ok sp ->
  num_training_examples sp < 0 ->
  Z.of_nat (length (val_indices sp))
  = Z.min (Z.of_nat N) (- num_training_examples sp)
  /\ Z.of_nat (length (train_indices sp))
     = Z.max 0 (Z.of_nat N + num_training_examples sp)
  /\ num_validation_examples sp = Z.of_nat N - num_training_examples sp
  /\ ((1 <= N)%nat ->
      Z.of_nat (length (val_indices sp)) < num_validation_examples sp).
Proof.
  intros Hlen. unfold make_split.
  destruct (training_count validation_fraction (Z.of_nat N)) as [k | e];
    [| discriminate].
  cbn [bind]. intros H. injection H as <-.
  cbn [train_indices val_indices num_training_examples
       num_validation_examples].
  intros Hk. unfold slice_to, slice_from, slice_stop.
  destruct (Z.ltb_spec k 0) as [_ | Hge]; [| lia].
  rewrite length_firstn, length_skipn, Hlen. lia.
Qed.

End Split.

(* ------------------------------------------------------------------ *)
(** ** [class SNL]: the early-stopped trainer and the round loop *)

(** What a call leaves behind: the state when it returned, or the exception
    it raised and the state at that moment. *)
Inductive outcome (S : Type) : Type :=
| Returned (s : S)
| Raised (e : exn) (s : S).
Arguments Returned {S} s.
Arguments Raised {S} e s.

Module SNL.
Import Binary64 Torch Split.

(** The two closures [__call__] passes as [parameter_sample_fn]:
    [lambda n: self._prior.sample((n,))] and
    [lambda n: self._neural_posterior.sample(n)]. *)
Inductive sample_fn : Type :=
| prior_sample
| posterior_sample.

Section SNL.

(** Tensor elements, the network's [state_dict], the summary entries that
    [utils.summarize] owns, and everything else the calls below read and
    write: the random generator, the optimizer's moment estimates, the
    telemetry sink. *)
Variables (elt params metrics world : Type).

(** [torch.randperm(n)]. *)
Variable randperm : nat -> world -> list nat * world.

(** [data.DataLoader(dataset, batch_size, drop_last, sampler)]. *)
Record loader : Type := mkLoader
  { dataset : tensor elt * tensor elt;
    batch_size : Z;
    drop_last : bool;
    sampler : list nat }.

(** [optim.Adam(net.parameters(), lr=learning_rate)].  The optimizer, the
    two passes below, the simulator and the summarizer are followed as calls
    that return: what they raise themselves (a learning rate the optimizer
    refuses, a failure inside the network) ends the run there and is not
    part of this model. *)
Variable Adam : float -> world -> world.

(** Lines 260-272: one pass over [train_loader], an optimizer step per
    batch. *)
Variable train_pass : loader -> world -> params -> world * params.

(** Lines 280-288: one pass over [val_loader]; the [log_prob.sum().item()]
    of each batch, in order. *)
Variable validation_pass : loader -> world -> params -> world * list float.

(** [simulators.simulate_in_batches(simulator, parameter_sample_fn,
    num_samples, simulation_batch_size, x_dim)]; the posterior's closure
    samples from the network as it is when called. *)
Variable simulate_in_batches :
  sample_fn -> params -> Z -> Z -> world -> (tensor elt * tensor elt) * world.

(** The summary dictionary: the two keys this file appends to, and the keys
    [utils.summarize] fills. *)
Record summary_t : Type := mkSummary
  { s_epochs : list Z;
    s_best_validation_log_probs : list float;
    s_metrics : metrics }.

(** [utils.summarize(summary_writer, summary, round_, true_observation,
    parameter_bank, observation_bank, simulator)]. *)
Variable summarize :
  summary_t -> Z -> list (tensor elt) -> list (tensor elt) -> world ->
  summary_t * world.

(** The object.  [sim_calls] is not a field of the class: it lists, in
    order, the round index and the closure of every call made to
    [simulate_in_batches]. *)
Record snl : Type := mkSnl
  { neural_net : params;
    simulation_batch_size : Z;
    parameter_bank : list (tensor elt);
    observation_bank : list (tensor elt);
    summary : summary_t;
    env : world;
    sim_calls : list (Z * sample_fn) }.

(** Lines 101-102 and 115-123 of [__init__]: empty banks, empty summary. *)
Definition init (density_estimator : params) (simulation_batch_size : Z)
  (no_metrics : metrics) (w : world) : snl :=
  mkSnl density_estimator simulation_batch_size [] []
        (mkSummary [] [] no_metrics) w [].

(** *** [_fit_likelihood] (lines 194-308) *)

(** The locals of the method that live across iterations of [while True]. *)
Record locals : Type := mkLocals
  { best_validation_log_prob : float;
    epochs_since_last_improvement : Z;
    best_model_state_dict : option params;
    epochs : Z;
    validation_log_prob : option float (* unbound before the first epoch *) }.

Record machine : Type := mkMachine
  { net : params;
    rng : world;
    loc : locals }.

Definition init_locals : locals :=
  mkLocals neg_1e100 0 None 0 None.

(** [data.TensorDataset(a, b)] asserts equal first dimensions. *)
Definition TensorDataset (a b : tensor elt)
  : result (tensor elt * tensor elt) :=
  if Nat.eqb (rows a) (rows b) then Ok (a, b) else Raise AssertionError_dataset.

(** The batch sampler behind a [DataLoader] rejects a batch size that is not
    positive. *)
Definition DataLoader (ds : tensor elt * tensor elt) (bs : Z) (dl : bool)
  (idx : list nat) : result loader :=
  if bs <=? 0 then Raise ValueError_batch_size else Ok (mkLoader ds bs dl idx).

(** Lines 226-244, once the split is known. *)
Definition make_loaders (pbank obank : list (tensor elt)) (batch_size : Z)
  (num_examples : Z) (sp : split) : result (loader * loader) :=
  o <- cat obank ;;
  p <- cat pbank ;;
  ds <- TensorDataset o p ;;
  train_loader <- DataLoader ds batch_size true (train_indices sp) ;;
  val_loader <- DataLoader ds
                  (Z.min batch_size (num_examples - num_training_examples sp))
                  false (val_indices sp) ;;
  Ok (train_loader, val_loader).

(** Lines 219-244: the split, the dataset and the two loaders. *)
Definition prepare (pbank obank : list (tensor elt)) (batch_size : Z)
  (validation_fraction : float) (num_examples : Z)
  (permuted_indices : list nat) : result (split * (loader * loader)) :=
  sp <- make_split validation_fraction num_examples permuted_indices ;;
  ld <- make_loaders pbank obank batch_size num_examples sp ;;
  Ok (sp, ld).

(** Lines 278-289: [log_prob_sum] starts as the int 0, grows by one float
    per batch and is divided by the int [num_validation_examples]. *)
Definition validation_score (val_loader : loader)
  (num_validation_examples : Z) (w : world) (p : params)
  : world * result float :=
  let (w', sums) := validation_pass val_loader w p in
  let log_prob_sum := fold_left fadd sums (float_of_int 0) in
  (w', if num_validation_examples =? 0 then Raise ZeroDivisionError
       else Ok (fdiv log_prob_sum (float_of_int num_validation_examples))).

(** Lines 291-299; [deepcopy] makes the snapshot a value of its own. *)
Definition note_score (l : locals) (v : float) (p : params) : locals :=
  if fgt v (best_validation_log_prob l)
  then mkLocals v 0 (Some p) (epochs l) (Some v)
  else mkLocals (best_validation_log_prob l)
                (epochs_since_last_improvement l + 1)
                (best_model_state_dict l) (epochs l) (Some v).

(** Lines 259-299: the body of the loop up to the stopping test. *)
Definition epoch_body (train_loader val_loader : loader)
  (num_validation_examples : Z) (m : machine) : outcome machine :=
  let (w1, p1) := train_pass train_loader (rng m) (net m) in
  let l1 := mkLocals (best_validation_log_prob (loc m))
                     (epochs_since_last_improvement (loc m))
                     (best_model_state_dict (loc m))
                     (epochs (loc m) + 1)
                     (validation_log_prob (loc m)) in
  let (w2, r) := validation_score val_loader num_validation_examples w1 p1 in
  match r with
  | Raise e => Raised e (mkMachine p1 w2 l1)
  | Ok v => Returned (mkMachine p1 w2 (note_score l1 v p1))
  end.

(** Line 302. *)
Definition stops (stop_after_epochs : Z) (m : machine) : bool :=
  epochs_since_last_improvement (loc m) >? stop_after_epochs - 1.

(** Lines 303-304: [load_state_dict(best_model_state_dict)], then [break]. *)
Definition finish (m : machine) : outcome machine :=
  match best_model_state_dict (loc m) with
  | None => Raised AttributeError_load_none m
  | Some sd => Returned (mkMachine sd (rng m) (loc m))
  end.

(** [while True]: the loop has no bound of its own; [fuel] bounds the number
    of iterations the model follows. *)
Fixpoint fit_loop (train_loader val_loader : loader)
  (num_validation_examples stop_after_epochs : Z)
  (fuel : nat) (m : machine) : option (outcome machine) :=
  match fuel with
  | O => None
  | S fuel' =>
      match epoch_body train_loader val_loader num_validation_examples m with
      | Raised e m' => Some (Raised e m')
      | Returned m' =>
          if stops stop_after_epochs m' then Some (finish m')
          else fit_loop train_loader val_loader num_validation_examples
                 stop_after_epochs fuel' m'
      end
  end.

(** The method, with its four keyword arguments. *)
Definition _fit_likelihood (fuel : nat)
  (batch_size : Z) (learning_rate validation_fraction : float)
  (stop_after_epochs : Z) (self : snl) : option (outcome snl) :=
  match cat (parameter_bank self) with
  | Raise e => Some (Raised e self)
  | Ok pooled =>
      let num_examples := rows pooled in
      let (permuted_indices, w1) := randperm num_examples (env self) in
      let put (p : params) (s : summary_t) (w : world) :=
        mkSnl p (simulation_batch_size self) (parameter_bank self)
              (observation_bank self) s w (sim_calls self) in
      match prepare (parameter_bank self) (observation_bank self) batch_size
              validation_fraction (Z.of_nat num_examples) permuted_indices
      with
      | Raise e => Some (Raised e (put (neural_net self) (summary self) w1))
      | Ok (sp, (train_loader, val_loader)) =>
          let w2 := Adam learning_rate w1 in
          match fit_loop train_loader val_loader
                  (Split.num_validation_examples sp) stop_after_epochs fuel
                  (mkMachine (neural_net self) w2 init_locals)
          with
          | None => None
          | Some (Raised e m) =>
              Some (Raised e (put (net m) (summary self) (rng m)))
          | Some (Returned m) =>
              Some (Returned
                      (put (net m)
                         (mkSummary
                            (s_epochs (summary self) ++ [epochs (loc m)])
                            (s_best_validation_log_probs (summary self)
                               ++ [best_validation_log_prob (loc m)])
                            (s_metrics (summary self)))
                         (rng m)))
          end
      end
  end.

(** *** [__call__] (lines 125-192) *)

(** Lines 145-164: which closure round [round_] passes on. *)
Definition proposal (round_ : Z) : sample_fn :=
  if round_ =? 0 then prior_sample else posterior_sample.

(** Lines 141-191: one round.  The progress-bar text is left out. *)
Definition round_body (fuel : nat) (num_simulations_per_round : Z)
  (round_ : Z) (self : snl) : option (outcome snl) :=
  let fn := proposal round_ in
  let '((parameters, observations), w1) :=
    simulate_in_batches fn (neural_net self) num_simulations_per_round
      (simulation_batch_size self) (env self) in
  let self1 :=
    mkSnl (neural_net self) (simulation_batch_size self)
          (parameter_bank self ++ [parameters])
          (observation_bank self ++ [observations])
          (summary self) w1 (sim_calls self ++ [(round_, fn)]) in
  match _fit_likelihood fuel 100 lit_5e_4 lit_0_1 20 self1 with
  | None => None
  | Some (Raised e self2) => Some (Raised e self2)
  | Some (Returned self2) =>
      let (s, w3) := summarize (summary self2) round_ (parameter_bank self2)
                       (observation_bank self2) (env self2) in
      Some (Returned
              (mkSnl (neural_net self2) (simulation_batch_size self2)
                     (parameter_bank self2) (observation_bank self2)
                     s w3 (sim_calls self2)))
  end.

(** [range(n)]. *)
Definition range (n : Z) : list Z := map Z.of_nat (seq 0 (Z.to_nat n)).

Fixpoint for_rounds (fuel : nat) (num_simulations_per_round : Z)
  (rounds : list Z) (self : snl) : option (outcome snl) :=
  match rounds with
  | [] => Some (Returned self)
  | round_ :: rest =>
      match round_body fuel num_simulations_per_round round_ self with
      | None => None
      | Some (Raised e self') => Some (Raised e self')
      | Some (Returned self') =>
          for_rounds fuel num_simulations_per_round rest self'
      end
  end.

Definition __call__ (fuel : nat) (num_rounds num_simulations_per_round : Z)
  (self : snl) : option (outcome snl) :=
  for_rounds fuel num_simulations_per_round (range num_rounds) self.

(** *** Notions the statements below use *)

Definition state_of {S : Type} (o : outcome S) : S :=
  match o with
  | Returned s => s
  | Raised _ s => s
  end.

Definition returned {S : Type} (o : outcome S) : bool :=
  match o with
  | Returned _ => true
  | Raised _ _ => false
  end.

(** Modelled from the spec: [simulate_in_batches] lives in [sbi.simulators],
    outside this file.  Section 4.1 has it produce "observations aligned 1:1
    with parameters" for the [numSimulationsPerRound] parameter vectors
    drawn, and section 6 has it return the pooled pairs for "a total sample
    count": both tensors have [num_samples] rows. *)
Definition simulate_contract : Prop :=
  forall fn p num_samples bs w,
    0 <= num_samples ->
    rows (fst (fst (simulate_in_batches fn p num_samples bs w)))
    = Z.to_nat num_samples
    /\ rows (snd (fst (simulate_in_batches fn p num_samples bs w)))
       = Z.to_nat num_samples.

(** The state after [n] passes through the body of the training loop, the
    stopping test left aside; [None] when a pass raised. *)
Fixpoint after_epochs (train_loader val_loader : loader)
  (num_validation_examples : Z) (n : nat) (m : machine) : option machine :=
  match n with
  | O => Some m
  | S n' =>
      match epoch_body train_loader val_loader num_validation_examples m with
      | Raised _ _ => None
      | Returned m' =>
          after_epochs train_loader val_loader num_validation_examples n' m'
      end
  end.

(** The epoch that led from [before] to [after] strictly improved on the
    best score seen before it. *)
Definition improved (before after : machine) : bool :=
  match validation_log_prob (loc after) with
  | Some v => fgt v (best_validation_log_prob (loc before))
  | None => false
  end.

(** *** Facts about the training loop *)

Section LoopFacts.

Variables (train_loader val_loader : loader).
Variables (num_validation_examples stop_after_epochs : Z).

Local Abbreviation body :=
  (epoch_body train_loader val_loader num_validation_examples).
Local Abbreviation loop :=
  (fit_loop train_loader val_loader num_validation_examples stop_after_epochs).
Local Abbreviation after :=
  (after_epochs train_loader val_loader num_validation_examples).
Local Abbreviation best m := (best_validation_log_prob (loc m)).
Local Abbreviation stall m := (epochs_since_last_improvement (loc m)).
Local Abbreviation snapshot m := (best_model_state_dict (loc m)).
Local Abbreviation score m := (validation_log_prob (loc m)).

(** One pass through the body: the score it computes is a quotient, hence in
    range, and the three locals move as lines 292-299 say. *)
Lemma epoch_body_returned (m m' : machine) :
  body m = Returned m' ->
  exists v,
    in_range v = true /\ score m' = Some v
    /\ epochs (loc m') = epochs (loc m) + 1
    /\ (fgt v (best m) = true ->
        best m' = v /\ stall m' = 0 /\ snapshot m' = Some (net m'))
    /\ (fgt v (best m) = false ->
        best m' = best m /\ stall m' = stall m + 1
        /\ snapshot m' = snapshot m).
Proof.
  unfold epoch_body, validation_score.
  destruct (train_pass train_loader (rng m) (net m)) as [w1 p1].
  destruct (validation_pass val_loader w1 p1) as [w2 sums].
  destruct (num_validation_examples =? 0); [discriminate |].
  intros H. injection H as <-.
  eexists. split; [apply fdiv_in_range |].
  unfold note_score. cbn [best_validation_log_prob loc].
  destruct (fgt _ (best m)) eqn:G; cbn; repeat split; auto; congruence.
Qed.

Lemma epoch_body_improved (a b : machine) :
  body a = Returned b ->
  (improved a b = true ->
   stall b = 0 /\ snapshot b = Some (net b) /\ score b = Some (best b))
  /\ (improved a b = false ->
      stall b = stall a + 1 /\ snapshot b = snapshot a /\ best b = best a).
Proof.
  intros H. destruct (epoch_body_returned a b H) as (v & _ & Hs & _ & Hi & Hn).
  unfold improved. rewrite Hs. split; intros G.
  - destruct (Hi G) as (-> & ? & ?). auto.
  - destruct (Hn G) as (? & ? & ?). auto.
Qed.

(** With a validation count other than 0 the body raises nothing. *)
Lemma epoch_body_total (m : machine) :
  num_validation_examples <> 0 -> exists m', body m = Returned m'.
Proof.
  intros H. unfold epoch_body, validation_score.
  destruct (train_pass train_loader (rng m) (net m)) as [w1 p1].
  destruct (validation_pass val_loader w1 p1) as [w2 sums].
  apply Z.eqb_neq in H. rewrite H. eexists. reflexivity.
Qed.

(** [after_epochs] unfolds at its last pass as well. *)
Lemma after_epochs_last (n : nat) : forall m,
  after (S n) m =
  match after n m with
  | Some a => match body a with
              | Returned b => Some b
              | Raised _ _ => None
              end
  | None => None
  end.
Proof.
  induction n as [| n IH]; intros m.
  - cbn. destruct (body m); reflexivity.
  - change (after (S (S n)) m)
      with (match body m with
            | Raised _ _ => None
            | Returned m' => after (S n) m'
            end).
    change (after (S n) m)
      with (match body m with
            | Raised _ _ => None
            | Returned m' => after n m'
            end).
    destruct (body m) as [m' | e m']; [apply IH | reflexivity].
Qed.

Lemma after_epochs_step (n : nat) (m b : machine) :
  after (S n) m = Some b ->
  exists a, after n m = Some a /\ body a = Returned b.
Proof.
  rewrite after_epochs_last.
  destruct (after n m) as [a |]; [| discriminate].
  destruct (body a) as [b' | e b'] eqn:E; [| discriminate].
  intros H. injection H as <-. eauto.
Qed.

(** How the loop ends, when it does: at the first state that passes the
    stopping test, or at the first pass that raises. *)
Lemma fit_loop_exit (fuel : nat) : forall m0 out,
  loop fuel m0 = Some out ->
  (exists n m,
      (1 <= n <= fuel)%nat /\ after n m0 = Some m
      /\ stops stop_after_epochs m = true /\ out = finish m
      /\ forall j mj, (1 <= j < n)%nat -> after j m0 = Some mj ->
                      stops stop_after_epochs mj = false)
  \/ (exists n a e b,
        after n m0 = Some a /\ body a = Raised e b /\ out = Raised e b).
Proof.
  induction fuel as [| fuel IH]; intros m0 out; [discriminate |].
  cbn [fit_loop]. destruct (body m0) as [m1 | e m1] eqn:E.
  - destruct (stops stop_after_epochs m1) eqn:St.
    + intros H. injection H as <-. left. exists 1%nat, m1.
      cbn [after_epochs]. rewrite E.
      split; [lia |]. split; [reflexivity |]. split; [exact St |].
      split; [reflexivity |]. intros j mj Hj. lia.
    + intros H. destruct (IH m1 out H) as
        [(n & m & Hn & Ha & Hs & Ho & Hb) | (n & a & e & b & Ha & Hb & Ho)].
      * left. exists (S n), m. cbn [after_epochs]. rewrite E.
        split; [lia |]. split; [exact Ha |]. split; [exact Hs |].
        split; [exact Ho |].
        intros [| j] mj Hj; [lia |]. cbn [after_epochs]. rewrite E.
        destruct j as [| j].
        -- cbn. intros K. injection K as <-. exact St.
        -- apply Hb. lia.
      * right. exists (S n), a, e, b. cbn [after_epochs]. rewrite E. auto.
  - intros H. injection H as <-. right. exists 0%nat, m0, e, m1. auto.
Qed.

(** The loop always ends: the best score can only climb through the finitely
    many binary64 values, and between two climbs the counter runs to
    [stop_after_epochs]. *)
Lemma fit_loop_total_aux (g : nat) : forall (c : nat) (m : machine),
  in_range (best m) = true ->
  (rank_top - rank (best m) <= Z.of_nat g) ->
  (stop_after_epochs - stall m <= Z.of_nat c) ->
  exists fuel out, loop fuel m = Some out.
Proof.
  induction g as [| g IHg].
  - (* the best score is the top of the order: no pass can improve on it *)
    induction c as [| c IHc]; intros m Hr Hg Hc.
    + destruct (body m) as [m' | e m'] eqn:E.
      * destruct (epoch_body_returned _ _ E) as (v & Hv & _ & _ & Hi & Hn).
        destruct (fgt v (best m)) eqn:G.
        -- apply rank_lt in G; auto. pose proof (rank_bounds v Hv). lia.
        -- destruct (Hn eq_refl) as (_ & Hs & _).
           exists 1%nat. eexists. cbn [fit_loop]. rewrite E.
           unfold stops. rewrite Hs.
           replace (stall m + 1 >? stop_after_epochs - 1) with true
             by (symmetry; apply Z.gtb_lt; lia).
           reflexivity.
      * exists 1%nat. eexists. cbn [fit_loop]. rewrite E. reflexivity.
    + destruct (body m) as [m' | e m'] eqn:E.
      * destruct (epoch_body_returned _ _ E) as (v & Hv & _ & _ & Hi & Hn).
        destruct (fgt v (best m)) eqn:G.
        -- apply rank_lt in G; auto. pose proof (rank_bounds v Hv). lia.
        -- destruct (Hn eq_refl) as (Hb & Hs & _).
           destruct (stops stop_after_epochs m') eqn:St.
           ++ exists 1%nat. eexists. cbn [fit_loop]. rewrite E, St.
              reflexivity.
           ++ destruct (IHc m') as (fuel & out & Hl).
              ** rewrite Hb. exact Hr.
              ** rewrite Hb. exact Hg.
              ** rewrite Hs. lia.
              ** exists (S fuel), out. cbn [fit_loop]. rewrite E, St.
                 exact Hl.
      * exists 1%nat. eexists. cbn [fit_loop]. rewrite E. reflexivity.
  - induction c as [| c IHc]; intros m Hr Hg Hc.
    + destruct (body m) as [m' | e m'] eqn:E.
      * destruct (epoch_body_returned _ _ E) as (v & Hv & _ & _ & Hi & Hn).
        destruct (stops stop_after_epochs m') eqn:St.
        { exists 1%nat. eexists. cbn [fit_loop]. rewrite E, St. reflexivity. }
        destruct (fgt v (best m)) eqn:G.
        -- destruct (Hi eq_refl) as (Hb & Hs & _).
           apply rank_lt in G; auto.
           destruct (IHg (Z.to_nat stop_after_epochs) m')
             as (fuel & out & Hl).
           ++ rewrite Hb. exact Hv.
           ++ rewrite Hb. lia.
           ++ rewrite Hs. lia.
           ++ exists (S fuel), out. cbn [fit_loop]. rewrite E, St. exact Hl.
        -- destruct (Hn eq_refl) as (_ & Hs & _).
           unfold stops in St. rewrite Hs in St.
           rewrite Z.gtb_ltb, Z.ltb_ge in St. lia.
      * exists 1%nat. eexists. cbn [fit_loop]. rewrite E. reflexivity.
    + destruct (body m) as [m' | e m'] eqn:E.
      * destruct (epoch_body_returned _ _ E) as (v & Hv & _ & _ & Hi & Hn).
        destruct (stops stop_after_epochs m') eqn:St.
        { exists 1%nat. eexists. cbn [fit_loop]. rewrite E, St. reflexivity. }
        destruct (fgt v (best m)) eqn:G.
        -- destruct (Hi eq_refl) as (Hb & Hs & _).
           apply rank_lt in G; auto.
           destruct (IHg (Z.to_nat stop_after_epochs) m')
             as (fuel & out & Hl).
           ++ rewrite Hb. exact Hv.
           ++ rewrite Hb. lia.
           ++ rewrite Hs. lia.
           ++ exists (S fuel), out. cbn [fit_loop]. rewrite E, St. exact Hl.
        -- destruct (Hn eq_refl) as (Hb & Hs & _).
           destruct (IHc m') as (fuel & out & Hl).
           ++ rewrite Hb. exact Hr.
           ++ rewrite Hb. exact Hg.
           ++ rewrite Hs. lia.
           ++ exists (S fuel), out. cbn [fit_loop]. rewrite E, St. exact Hl.
      * exists 1%nat. eexists. cbn [fit_loop]. rewrite E. reflexivity.
Qed.

Lemma fit_loop_total (m : machine) :
  in_range (best m) = true -> exists fuel out, loop fuel m = Some out.
Proof.
  intros Hr. pose proof (rank_bounds _ Hr) as Hb.
  apply (fit_loop_total_aux (Z.to_nat (rank_top - rank (best m)))
           (Z.to_nat (stop_after_epochs - stall m)) m Hr); lia.
Qed.

(** More fuel changes nothing once the loop has ended. *)
Lemma fit_loop_more_fuel (fuel : nat) : forall extra m out,
  loop fuel m = Some out -> loop (fuel + extra) m = Some out.
Proof.
  induction fuel as [| fuel IH]; intros extra m out; [discriminate |].
  cbn [fit_loop Nat.add]. destruct (body m) as [m' | e m']; auto.
  destruct (stops stop_after_epochs m'); auto.
Qed.


(** At the exit the counter equals [stop_after_epochs], when that is 1 at
    least: the last pass cannot have improved, and the pass before it had
    not yet reached the threshold. *)
Lemma stall_at_exit (m0 mn : machine) (n : nat) :
  1 <= stop_after_epochs -> stall m0 = 0 ->
  (1 <= n)%nat -> after n m0 = Some mn ->
  stops stop_after_epochs mn = true ->
  (forall j mj, (1 <= j < n)%nat -> after j m0 = Some mj ->
                stops stop_after_epochs mj = false) ->
  stall mn = stop_after_epochs.
Proof.
  intros Hstop H0 Hn Ha Hs Hbefore.
  destruct n as [| n]; [lia |].
  destruct (after_epochs_step _ _ _ Ha) as (a & Haa & Hb).
  assert (Hsa : stall a <= stop_after_epochs - 1).
  { destruct n as [| n].
    - cbn in Haa. injection Haa as <-. lia.
    - assert (St : stops stop_after_epochs a = false)
        by (apply (Hbefore (S n)); [lia | exact Haa]).
      unfold stops in St. rewrite Z.gtb_ltb, Z.ltb_ge in St. exact St. }
  unfold stops in Hs. rewrite Z.gtb_ltb, Z.ltb_lt in Hs.
  destruct (epoch_body_improved a mn Hb) as [Hi Hni].
  destruct (improved a mn).
  - destruct (Hi eq_refl) as (Hz & _). lia.
  - destruct (Hni eq_refl) as (Hz & _). lia.
Qed.

(** What the best score and the snapshot are after [j] passes, from a fresh
    start: the score and the parameters of one same pass [k], the first to
    reach the highest score so far; the counter counts the passes since. *)
Lemma best_so_far (m0 : machine) :
  loc m0 = init_locals ->
  forall j mj, after j m0 = Some mj ->
    in_range (best mj) = true /\ is_nan (best mj) = false
    /\ epochs (loc mj) = Z.of_nat j
    /\ (forall i mi s, (1 <= i <= j)%nat -> after i m0 = Some mi ->
          score mi = Some s -> in_range s = true /\ fgt s (best mj) = false)
    /\ match snapshot mj with
       | None => True
       | Some p =>
           exists k mk,
             (1 <= k <= j)%nat /\ after k m0 = Some mk /\ p = net mk
             /\ score mk = Some (best mj)
             /\ stall mj = Z.of_nat j - Z.of_nat k
             /\ forall i mi s, (1 <= i < k)%nat -> after i m0 = Some mi ->
                  score mi = Some s ->
                  fgt (best mj) s = true \/ is_nan s = true
       end.
Proof.
  intros H0. induction j as [| j IH]; intros mj Hj.
  - cbn in Hj. injection Hj as <-. rewrite H0. cbn.
    repeat split; auto; intros; lia.
  - destruct (after_epochs_step _ _ _ Hj) as (a & Ha & Hb).
    destruct (IH a Ha) as (Hr & Hnan & He & Hsc & Hsnap).
    destruct (epoch_body_returned a mj Hb) as (v & Hv & Hs & Hep & Hi & Hn).
    destruct (fgt v (best a)) eqn:G.
    + destruct (Hi eq_refl) as (Hbest & Hst & Hsn).
      rewrite Hbest, Hsn.
      destruct (SFltb_true_not_nan _ _ G) as [_ Nv].
      split; [exact Hv |]. split; [exact Nv |]. split; [lia |]. split.
      * intros i mi s Hi' Hmi Hsi.
        destruct (Nat.eq_dec i (S j)) as [-> | Hne].
        -- rewrite Hj in Hmi. injection Hmi as <-.
           rewrite Hs in Hsi. injection Hsi as <-.
           split; [exact Hv | apply fgt_irrefl].
        -- destruct (Hsc i mi s ltac:(lia) Hmi Hsi) as [Rs Gs].
           split; [exact Rs |].
           apply (not_above_later_best (best a)); assumption.
      * exists (S j), mj.
        split; [lia |]. split; [exact Hj |]. split; [reflexivity |].
        split; [exact Hs |]. split; [lia |].
        intros i mi s Hi' Hmi Hsi.
        destruct (Hsc i mi s ltac:(lia) Hmi Hsi) as [Rs Gs].
        destruct (is_nan s) eqn:Ns; [right; reflexivity | left].
        apply (below_later_best (best a)); assumption.
    + destruct (Hn eq_refl) as (Hbest & Hst & Hsn).
      rewrite Hbest, Hsn.
      split; [exact Hr |]. split; [exact Hnan |]. split; [lia |]. split.
      * intros i mi s Hi' Hmi Hsi.
        destruct (Nat.eq_dec i (S j)) as [-> | Hne].
        -- rewrite Hj in Hmi. injection Hmi as <-.
           rewrite Hs in Hsi. injection Hsi as <-. auto.
        -- apply (Hsc i mi s); auto. lia.
      * destruct (snapshot a) as [p |]; [| exact I].
        destruct Hsnap as (k & mk & Hk & Hmk & Hp & Hsk & Hstall & Hfirst).
        exists k, mk. repeat split; auto; try lia.
Qed.



End LoopFacts.

(** *** Facts about [_fit_likelihood] *)

(** C4.  A call of the trainer ends after finitely many epochs.  The two
    conditions of the statement are kept (no validation score exceeds
    some [B], [stop_after_epochs] is positive); [fit_loop_total] shows
    that the loop ends without them as well, the binary64 scores being
    finitely many. *)
Theorem fit_terminates (batch_size : Z)
  (learning_rate validation_fraction : float)
  (stop_after_epochs : Z) (self : snl) (B : float) :
  (forall vl nv w p w' v,
      validation_score vl nv w p = (w', Ok v) -> fgt v B = false) ->
  0 < stop_after_epochs ->
  exists fuel out,
    _fit_likelihood fuel batch_size learning_rate validation_fraction
      stop_after_epochs self = Some out.
Proof.
  intros _ _. unfold _fit_likelihood.
  destruct (cat (parameter_bank self)) as [pooled | e];
    [| exists 0%nat; eexists; reflexivity].
  destruct (randperm (rows pooled) (env self)) as [perm w1].
  destruct (prepare _ _ _ _ _ _) as [[sp [tl vl]] | e];
    [| exists 0%nat; eexists; reflexivity].
  destruct (fit_loop_total tl vl (Split.num_validation_examples sp)
              stop_after_epochs
              (mkMachine (neural_net self) (Adam learning_rate w1) init_locals)
              eq_refl) as (fuel & out & H).
  exists fuel. rewrite H. destruct out; eexists; reflexivity.
Qed.

Lemma DataLoader_ok (ds : tensor elt * tensor elt) (bs : Z) (dl : bool)
  (idx : list nat) :
  0 < bs -> DataLoader ds bs dl idx = Ok (mkLoader ds bs dl idx).
Proof.
  intros H. unfold DataLoader.
  destruct (Z.leb_spec bs 0); [lia | reflexivity].
Qed.

(** Loaders that were built leave one validation example at least. *)
Lemma prepare_ok_validation (pbank obank : list (tensor elt)) (bs : Z)
  (vf : float) (N : Z) (perm : list nat) (sp : split) (tl vl : loader) :
  prepare pbank obank bs vf N perm = Ok (sp, (tl, vl)) ->
  1 <= Split.num_validation_examples sp
  /\ Split.num_validation_examples sp = N - num_training_examples sp.
Proof.
  unfold prepare, make_split.
  destruct (training_count vf N) as [k | e]; [| discriminate].
  cbn [bind]. unfold make_loaders.
  destruct (cat obank) as [o | e]; [| discriminate].
  destruct (cat pbank) as [p | e]; [| discriminate]. cbn [bind].
  destruct (TensorDataset o p) as [ds | e]; [| discriminate]. cbn [bind].
  unfold DataLoader. destruct (bs <=? 0); [discriminate |]. cbn [bind].
  cbn [num_training_examples].
  destruct (Z.leb_spec (Z.min bs (N - k)) 0) as [Hle | Hgt];
    [discriminate |]. cbn [bind].
  intros E. injection E as <- _ _. cbn. lia.
Qed.

(** Every call of the trainer either raises while it prepares the split and
    the loaders, the network untouched, or runs the loop from fresh locals
    with one validation example at least; what the loop leaves is what the
    call leaves, and a loop that returned has its epoch count and best score
    appended to the summary. *)
Lemma fit_likelihood_runs_loop (fuel : nat) (bs : Z) (lr vf : float)
  (stop : Z) (self : snl) (out : outcome snl) :
  _fit_likelihood fuel bs lr vf stop self = Some out ->
  (returned out = false /\ neural_net (state_of out) = neural_net self
   /\ summary (state_of out) = summary self)
  \/ exists tl vl nv w lo,
      1 <= nv
      /\ fit_loop tl vl nv stop fuel (mkMachine (neural_net self) w init_locals)
         = Some lo
      /\ returned out = returned lo
      /\ neural_net (state_of out) = net (state_of lo)
      /\ (returned lo = true ->
          s_epochs (summary (state_of out))
          = s_epochs (summary self) ++ [epochs (loc (state_of lo))]
          /\ s_best_validation_log_probs (summary (state_of out))
             = s_best_validation_log_probs (summary self)
               ++ [best_validation_log_prob (loc (state_of lo))]).
Proof.
  unfold _fit_likelihood.
  destruct (cat (parameter_bank self)) as [pooled | e].
  - destruct (randperm (rows pooled) (env self)) as [perm w1].
    destruct (prepare _ _ _ _ _ _) as [[sp [tl vl]] | e] eqn:P.
    + destruct (prepare_ok_validation _ _ _ _ _ _ _ _ _ P) as [Hnv _].
      destruct (fit_loop _ _ _ _ _ _) as [lo |] eqn:L; [| discriminate].
      intros H. right.
      exists tl, vl, (Split.num_validation_examples sp), (Adam lr w1), lo.
      split; [exact Hnv |]. split; [exact L |].
      destruct lo as [m | e m]; injection H as <-; cbn;
        repeat split; auto; discriminate.
    + intros H; injection H as <-. left. cbn. auto.
  - intros H; injection H as <-. left. cbn. auto.
Qed.

(** C8, as the code has it.  With the two banks pooled into tensors of equal
    row count, a positive batch size and [k] training examples out of
    [num_examples], [prepare] raises - the [ValueError] of the validation
    loader's batch size - exactly when [num_examples - k <= 0], that is when
    the validation split would be empty; with one validation example or more
    it returns the split and both loaders, and the training loop starts. *)
Theorem empty_validation_split_raises
  (pbank obank : list (tensor elt)) (po oo : tensor elt)
  (batch_size num_examples k : Z) (validation_fraction : float)
  (permuted_indices : list nat) :
  cat pbank = Ok po -> cat obank = Ok oo -> rows oo = rows po ->
  0 < batch_size ->
  training_count validation_fraction num_examples = Ok k ->
  (num_examples - k <= 0 ->
   prepare pbank obank batch_size validation_fraction num_examples
     permuted_indices = Raise ValueError_batch_size)
  /\ (1 <= num_examples - k ->
      exists train_loader val_loader,
        prepare pbank obank batch_size validation_fraction num_examples
          permuted_indices
        = Ok (mkSplit k (num_examples - k)
                      (slice_to k permuted_indices)
                      (slice_from k permuted_indices),
              (train_loader, val_loader))
        /\ sampler train_loader = slice_to k permuted_indices
        /\ sampler val_loader = slice_from k permuted_indices).
Proof.
  intros Hp Ho Hrows Hbs Hk.
  unfold prepare, make_split, make_loaders.
  rewrite Hk. cbn [bind]. rewrite Ho, Hp. cbn [bind].
  unfold TensorDataset. rewrite Hrows, Nat.eqb_refl. cbn [bind].
  rewrite (DataLoader_ok _ _ _ _ Hbs). cbn [bind num_training_examples].
  split; intros H.
  - unfold DataLoader.
    destruct (Z.leb_spec (Z.min batch_size (num_examples - k)) 0);
      [reflexivity | lia].
  - rewrite DataLoader_ok by lia. cbn [bind].
    eexists. eexists. split; [reflexivity |]. split; reflexivity.
Qed.

(** *** Facts about [__call__] *)

(** The trainer touches neither the banks nor the call log. *)
Lemma fit_keeps_banks (fuel : nat) (bs : Z) (lr vf : float) (stop : Z)
  (self : snl) (out : outcome snl) :
  _fit_likelihood fuel bs lr vf stop self = Some out ->
  parameter_bank (state_of out) = parameter_bank self
  /\ observation_bank (state_of out) = observation_bank self
  /\ sim_calls (state_of out) = sim_calls self
  /\ simulation_batch_size (state_of out) = simulation_batch_size self.
Proof.
  unfold _fit_likelihood.
  destruct (cat (parameter_bank self)) as [pooled | e].
  - destruct (randperm (rows pooled) (env self)) as [perm w1].
    destruct (prepare _ _ _ _ _ _) as [[sp [tl vl]] | e].
    + destruct (fit_loop _ _ _ _ _ _) as [[m | e m] |]; [| | discriminate];
        intros H; injection H as <-; cbn; auto.
    + intros H; injection H as <-; cbn; auto.
  - intros H; injection H as <-; cbn; auto.
Qed.

(** One round appends one entry to each bank and makes one call to the
    simulator, with the closure [proposal] picks. *)
Lemma round_body_appends (fuel : nat) (n round_ : Z) (self : snl)
  (out : outcome snl) :
  round_body fuel n round_ self = Some out ->
  let sim := simulate_in_batches (proposal round_) (neural_net self) n
               (simulation_batch_size self) (env self) in
  parameter_bank (state_of out) = parameter_bank self ++ [fst (fst sim)]
  /\ observation_bank (state_of out)
     = observation_bank self ++ [snd (fst sim)]
  /\ sim_calls (state_of out)
     = sim_calls self ++ [(round_, proposal round_)]
  /\ simulation_batch_size (state_of out) = simulation_batch_size self.
Proof.
  unfold round_body.
  destruct (simulate_in_batches _ _ _ _ _) as [[ps os] w1]. cbn [fst snd].
  destruct (_fit_likelihood _ _ _ _ _ _) as [o |] eqn:F; [| discriminate].
  destruct (fit_keeps_banks _ _ _ _ _ _ _ F) as (Hp & Ho & Hc & Hb).
  destruct o as [self2 | e self2]; cbn [state_of] in *.
  - destruct (summarize _ _ _ _ _) as [s' w3].
    intros H; injection H as <-. cbn. auto.
  - intros H; injection H as <-. cbn. auto.
Qed.

(** The rounds [a, a+1, ...] of the loop, as far as it got. *)
Lemma for_rounds_log (fuel : nat) (n : Z) (len : nat) :
  forall (a : nat) (self : snl) (out : outcome snl),
  for_rounds fuel n (map Z.of_nat (seq a len)) self = Some out ->
  exists (begun : nat) (ps os : list (tensor elt)),
    (begun <= len)%nat
    /\ (returned out = true -> begun = len)
    /\ sim_calls (state_of out)
       = sim_calls self
         ++ map (fun r => (Z.of_nat r, proposal (Z.of_nat r))) (seq a begun)
    /\ parameter_bank (state_of out) = parameter_bank self ++ ps
    /\ observation_bank (state_of out) = observation_bank self ++ os
    /\ length ps = begun /\ length os = begun
    /\ (simulate_contract -> 0 <= n ->
        Forall (fun t => rows t = Z.to_nat n) ps
        /\ Forall (fun t => rows t = Z.to_nat n) os).
Proof.
  induction len as [| len IH]; intros a self out; cbn [seq map for_rounds].
  - intros H; injection H as <-. exists 0%nat, [], []. cbn.
    rewrite !app_nil_r. repeat split; auto.
  - destruct (round_body fuel n (Z.of_nat a) self) as [o |] eqn:R;
      [| discriminate].
    pose proof (round_body_appends _ _ _ _ _ R) as (Hp & Ho & Hc & _).
    set (sim := simulate_in_batches _ _ _ _ _) in *.
    destruct o as [self' | e self']; cbn [state_of] in *.
    + intros H.
      destruct (IH (S a) self' out H)
        as (begun & ps & os & Hb & Hr & Hl & Hps & Hos & Lp & Lo & Hrows).
      exists (S begun), (fst (fst sim) :: ps), (snd (fst sim) :: os).
      split; [lia |]. split; [intros K; rewrite (Hr K); reflexivity |].
      split; [rewrite Hl, Hc, <- app_assoc; reflexivity |].
      split; [rewrite Hps, Hp, <- app_assoc; reflexivity |].
      split; [rewrite Hos, Ho, <- app_assoc; reflexivity |].
      split; [cbn; lia |]. split; [cbn; lia |].
      intros Hsim Hn. destruct (Hrows Hsim Hn) as [Fp Fo].
      destruct (Hsim (proposal (Z.of_nat a)) (neural_net self) n
                  (simulation_batch_size self) (env self) Hn) as [Rp Ro].
      split; constructor; assumption.
    + intros H; injection H as <-. cbn [state_of returned].
      exists 1%nat, [fst (fst sim)], [snd (fst sim)].
      split; [lia |]. split; [discriminate |].
      split; [exact Hc |]. split; [exact Hp |]. split; [exact Ho |].
      split; [reflexivity |]. split; [reflexivity |].
      intros Hsim Hn.
      destruct (Hsim (proposal (Z.of_nat a)) (neural_net self) n
                  (simulation_batch_size self) (env self) Hn) as [Rp Ro].
      split; constructor; auto.
Qed.



(** *** Further facts about the training loop *)

Section MoreLoopFacts.

Variables (train_loader val_loader : loader).
Variables (num_validation_examples stop_after_epochs : Z).

Local Abbreviation body :=
  (epoch_body train_loader val_loader num_validation_examples).
Local Abbreviation loop :=
  (fit_loop train_loader val_loader num_validation_examples stop_after_epochs).
Local Abbreviation after :=
  (after_epochs train_loader val_loader num_validation_examples).
Local Abbreviation best m := (best_validation_log_prob (loc m)).
Local Abbreviation stall m := (epochs_since_last_improvement (loc m)).
Local Abbreviation snapshot m := (best_model_state_dict (loc m)).
Local Abbreviation score m := (validation_log_prob (loc m)).

(** The score a pass records is the one [validation_score] computed. *)
Lemma epoch_body_score (m m' : machine) :
  body m = Returned m' ->
  exists w p w' v,
    validation_score val_loader num_validation_examples w p = (w', Ok v)
    /\ score m' = Some v.
Proof.
  unfold epoch_body.
  destruct (train_pass train_loader (rng m) (net m)) as [w1 p1].
  destruct (validation_score val_loader num_validation_examples w1 p1)
    as [w2 [v | e]] eqn:V; [| discriminate].
  intros H. injection H as <-. exists w1, p1, w2, v.
  split; [exact V |]. unfold note_score.
  destruct (fgt v _); reflexivity.
Qed.

(** The body raises nothing but the division by a validation count of 0. *)
Lemma epoch_body_raised (m m' : machine) (e : exn) :
  body m = Raised e m' ->
  e = ZeroDivisionError /\ num_validation_examples = 0.
Proof.
  unfold epoch_body, validation_score.
  destruct (train_pass train_loader (rng m) (net m)) as [w1 p1].
  destruct (validation_pass val_loader w1 p1) as [w2 sums].
  destruct (Z.eqb_spec num_validation_examples 0); [| discriminate].
  intros H. injection H as <- _. auto.
Qed.

Lemma fit_loop_raised (fuel : nat) : forall m m' e,
  loop fuel m = Some (Raised e m') ->
  (e = ZeroDivisionError /\ num_validation_examples = 0)
  \/ e = AttributeError_load_none.
Proof.
  induction fuel as [| fuel IH]; intros m m' e; [discriminate |].
  cbn [fit_loop]. destruct (body m) as [m1 | e1 m1] eqn:E.
  - destruct (stops stop_after_epochs m1).
    + unfold finish. destruct (snapshot m1); [discriminate |].
      intros H. injection H as <- _. auto.
    + apply IH.
  - intros H. injection H as <- _. left.
    exact (epoch_body_raised _ _ _ E).
Qed.

(** Once a snapshot exists the best score is strictly above the sentinel;
    until then it is the sentinel. *)
Lemma best_beats_sentinel (m0 : machine) :
  loc m0 = init_locals ->
  forall j mj, after j m0 = Some mj ->
    match snapshot mj with
    | None => best mj = neg_1e100
    | Some _ => fgt (best mj) neg_1e100 = true
    end.
Proof.
  intros H0. induction j as [| j IH]; intros mj Hj.
  - cbn in Hj. injection Hj as <-. rewrite H0. reflexivity.
  - destruct (after_epochs_step _ _ _ _ _ _ Hj) as (a & Ha & Hb).
    pose proof (IH a Ha) as Hprev.
    destruct (best_so_far _ _ _ m0 H0 j a Ha) as (Hr & _).
    destruct (epoch_body_returned _ _ _ a mj Hb)
      as (v & Hv & _ & _ & Hi & Hn).
    destruct (fgt v (best a)) eqn:G.
    + destruct (Hi eq_refl) as (-> & _ & ->).
      destruct (snapshot a).
      * unfold fgt in *.
        apply (SFltb_trans neg_1e100 (best a) v); auto.
      * rewrite Hprev in G. exact G.
    + destruct (Hn eq_refl) as (-> & _ & ->). exact Hprev.
Qed.

(** X5.  When no validation score beats the sentinel -1e100 (scores that
    are NaN, or -inf), the loop runs exactly [stop_after_epochs] epochs and
    then raises on [load_state_dict(None)]: there is no snapshot, and the
    network is left as the last epoch trained it. *)
Theorem never_improving_raises (m0 : machine) :
  num_validation_examples <> 0 ->
  1 <= stop_after_epochs ->
  loc m0 = init_locals ->
  (forall w p w' v,
      validation_score val_loader num_validation_examples w p = (w', Ok v) ->
      fgt v neg_1e100 = false) ->
  exists mn,
    after (Z.to_nat stop_after_epochs) m0 = Some mn
    /\ loop (Z.to_nat stop_after_epochs) m0
       = Some (Raised AttributeError_load_none mn)
    /\ epochs (loc mn) = stop_after_epochs
    /\ snapshot mn = None.
Proof.
  intros Hnv Hstop H0 Hlow.
  assert (K : forall d m,
             best m = neg_1e100 -> snapshot m = None ->
             stall m = stop_after_epochs - Z.of_nat (S d) ->
             exists mn,
               after (S d) m = Some mn
               /\ loop (S d) m = Some (Raised AttributeError_load_none mn)
               /\ epochs (loc mn) = epochs (loc m) + Z.of_nat (S d)
               /\ snapshot mn = None).
  { induction d as [| d IH]; intros m Hb Hs Hst.
    - destruct (epoch_body_total train_loader val_loader
                  num_validation_examples m Hnv) as (m1 & E).
      destruct (epoch_body_returned _ _ _ m m1 E)
        as (v & _ & Hsc & Hep & _ & Hn).
      destruct (epoch_body_score m m1 E) as (w & p & w' & v' & Hv' & Hsc').
      assert (v' = v) as -> by congruence.
      rewrite Hb in Hn. destruct (Hn (Hlow _ _ _ _ Hv')) as (Hb1 & Hs1 & Hn1).
      exists m1. cbn [after_epochs fit_loop]. rewrite E.
      unfold stops. rewrite Hs1, Hst.
      replace (stop_after_epochs - Z.of_nat 1 + 1 >? stop_after_epochs - 1)
        with true by (symmetry; apply Z.gtb_lt; lia).
      unfold finish. rewrite Hn1, Hs.
      repeat split; auto; lia.
    - destruct (epoch_body_total train_loader val_loader
                  num_validation_examples m Hnv) as (m1 & E).
      destruct (epoch_body_returned _ _ _ m m1 E)
        as (v & _ & Hsc & Hep & _ & Hn).
      destruct (epoch_body_score m m1 E) as (w & p & w' & v' & Hv' & Hsc').
      assert (v' = v) as -> by congruence.
      rewrite Hb in Hn. destruct (Hn (Hlow _ _ _ _ Hv')) as (Hb1 & Hs1 & Hn1).
      destruct (IH m1) as (mn & Ha & Hl & He & Hsn).
      + rewrite Hb1. reflexivity.
      + rewrite Hn1. exact Hs.
      + rewrite Hs1, Hst. lia.
      + exists mn.
        change (after (S (S d)) m)
          with (match body m with
                | Raised _ _ => None
                | Returned m' => after (S d) m'
                end).
        change (loop (S (S d)) m)
          with (match body m with
                | Raised e m' => Some (Raised e m')
                | Returned m' =>
                    if stops stop_after_epochs m' then Some (finish m')
                    else loop (S d) m'
                end).
        rewrite E. unfold stops. rewrite Hs1, Hst.
        replace (stop_after_epochs - Z.of_nat (S (S d)) + 1
                 >? stop_after_epochs - 1)
          with false by (symmetry; rewrite Z.gtb_ltb; apply Z.ltb_ge; lia).
        repeat split; auto; lia. }
  destruct (K (Z.to_nat stop_after_epochs - 1)%nat m0)
    as (mn & Ha & Hl & He & Hsn).
  - rewrite H0. reflexivity.
  - rewrite H0. reflexivity.
  - rewrite H0. cbn [epochs_since_last_improvement init_locals]. lia.
  - replace (S (Z.to_nat stop_after_epochs - 1))
      with (Z.to_nat stop_after_epochs) in * by lia.
    exists mn. rewrite H0 in He. cbn [epochs init_locals] in He.
    repeat split; auto; lia.
Qed.

(** A loop that returned, from fresh locals: one epoch at least improved,
    so more than [stop_after_epochs] epochs were trained and the best score
    is strictly above the sentinel. *)
Lemma returned_loop_has_improved (m0 mf : machine) (fuel : nat) :
  loc m0 = init_locals ->
  loop fuel m0 = Some (Returned mf) ->
  1 <= epochs (loc mf)
  /\ fgt (best mf) neg_1e100 = true
  /\ (1 <= stop_after_epochs -> stop_after_epochs + 1 <= epochs (loc mf)).
Proof.
  intros H0 Hloop.
  destruct (fit_loop_exit _ _ _ _ fuel m0 _ Hloop)
    as [(n & mn & Hn & Ha & Hs & Ho & Hbefore)
       | (n & a & e & b & _ & _ & Ho)]; [| discriminate].
  destruct (best_so_far _ _ _ m0 H0 n mn Ha) as (_ & _ & He & _ & Hsnap).
  pose proof (best_beats_sentinel m0 H0 n mn Ha) as Hbeat.
  unfold finish in Ho. destruct (snapshot mn) as [sd |]; [| discriminate].
  injection Ho as ->. cbn [loc].
  destruct Hsnap as (k & mk & Hk & _ & _ & _ & Hstall & _).
  split; [lia |]. split; [exact Hbeat |].
  intros Hstop.
  assert (Hz : stall m0 = 0) by (rewrite H0; reflexivity).
  pose proof (stall_at_exit _ _ _ _ m0 mn n Hstop Hz ltac:(lia) Ha Hs
                Hbefore).
  lia.
Qed.

(** X7.  With [stop_after_epochs <= 0] the stopping test holds after the
    first epoch whatever its score: exactly one epoch is trained. *)
Theorem nonpositive_patience_one_epoch (m0 : machine) (fuel : nat) :
  num_validation_examples <> 0 ->
  stop_after_epochs <= 0 ->
  0 <= stall m0 ->
  exists m1,
    body m0 = Returned m1
    /\ loop (S fuel) m0 = Some (finish m1)
    /\ epochs (loc m1) = epochs (loc m0) + 1.
Proof.
  intros Hnv Hstop Hs.
  destruct (epoch_body_total train_loader val_loader
              num_validation_examples m0 Hnv) as (m1 & E).
  destruct (epoch_body_returned _ _ _ m0 m1 E)
    as (v & _ & _ & Hep & Hi & Hn).
  exists m1. split; [exact E |]. split; [| exact Hep].
  cbn [fit_loop]. rewrite E. unfold stops.
  replace (stall m1 >? stop_after_epochs - 1) with true; [reflexivity |].
  symmetry. apply Z.gtb_lt.
  destruct (fgt v (best m0)).
  - destruct (Hi eq_refl) as (_ & -> & _). lia.
  - destruct (Hn eq_refl) as (_ & -> & _). lia.
Qed.

End MoreLoopFacts.

(** *** Further facts about [_fit_likelihood] *)

Lemma cat_raised (ts : list (tensor elt)) (e : exn) :
  cat ts = Raise e -> e = RuntimeError_cat.
Proof.
  unfold cat. destruct ts as [| t0 ts0]; [congruence |].
  destruct (filter _ (t0 :: ts0)) as [| t rest]; [discriminate |].
  destruct (forallb _ (t :: rest)); congruence.
Qed.

(** What the preparation can raise, and when it is the dataset's
    assertion. *)
Lemma prepare_raised (pbank obank : list (tensor elt)) (bs : Z) (vf : float)
  (N : Z) (perm : list nat) (e : exn) :
  prepare pbank obank bs vf N perm = Raise e ->
  In e [RuntimeError_cat; ValueError_int_nan; OverflowError_int_inf;
        AssertionError_dataset; ValueError_batch_size]
  /\ (e = AssertionError_dataset ->
      exists o p, cat obank = Ok o /\ cat pbank = Ok p /\ rows o <> rows p).
Proof.
  unfold prepare, make_split, training_count, py_int.
  destruct (fmul _ _) as [sg | sg | | sg m ex]; cbn [bind];
    try (intros H; injection H as <-; split; [cbn; tauto | discriminate]).
  all: unfold make_loaders;
    destruct (cat obank) as [o | e0] eqn:Co; cbn [bind];
      [| intros H; injection H as <-; rewrite (cat_raised _ _ Co);
         split; [cbn; tauto | discriminate]];
    destruct (cat pbank) as [p | e0] eqn:Cp; cbn [bind];
      [| intros H; injection H as <-; rewrite (cat_raised _ _ Cp);
         split; [cbn; tauto | discriminate]];
    unfold TensorDataset;
    destruct (Nat.eqb_spec (rows o) (rows p)) as [Hr | Hr]; cbn [bind];
      [| intros H; injection H as <-;
         split; [cbn; tauto | intros _; exists o, p; auto]];
    unfold DataLoader; destruct (bs <=? 0); cbn [bind];
      [intros H; injection H as <-; split; [cbn; tauto | discriminate] |];
    destruct (Z.min bs _ <=? 0); cbn [bind];
      [intros H; injection H as <-; split; [cbn; tauto | discriminate]
      | discriminate].
Qed.

(** The two ways a call of the trainer raises among the runs followed here
    (those in which the optimizer and the two passes return): while it
    prepares, the network and the summary untouched; or on
    [load_state_dict(None)] after the loop, the summary untouched. *)
Lemma fit_raised_cases (fuel : nat) (bs : Z) (lr vf : float) (stop : Z)
  (self s : snl) (e : exn) :
  _fit_likelihood fuel bs lr vf stop self = Some (Raised e s) ->
  summary s = summary self
  /\ ((neural_net s = neural_net self
       /\ In e [RuntimeError_cat; ValueError_int_nan; OverflowError_int_inf;
                AssertionError_dataset; ValueError_batch_size]
       /\ (e = AssertionError_dataset ->
           exists o p, cat (observation_bank self) = Ok o
                       /\ cat (parameter_bank self) = Ok p
                       /\ rows o <> rows p))
      \/ e = AttributeError_load_none).
Proof.
  unfold _fit_likelihood.
  destruct (cat (parameter_bank self)) as [pooled | e0] eqn:C.
  - destruct (randperm (rows pooled) (env self)) as [perm w1].
    destruct (prepare _ _ _ _ _ _) as [[sp [tl vl]] | e0] eqn:P.
    + destruct (prepare_ok_validation _ _ _ _ _ _ _ _ _ P) as [Hnv _].
      destruct (fit_loop _ _ _ _ _ _) as [[m | e1 m] |] eqn:L;
        try discriminate.
      intros H. injection H as <- <-. cbn [summary neural_net].
      split; [reflexivity |]. right.
      destruct (fit_loop_raised _ _ _ _ _ _ _ _ L) as [[_ Hz] | He];
        [lia | exact He].
    + intros H. injection H as <- <-. cbn [summary neural_net].
      split; [reflexivity |]. left.
      destruct (prepare_raised _ _ _ _ _ _ _ P) as [Hin Hass].
      split; [reflexivity |]. split; [exact Hin |].
      rewrite C in Hass. exact Hass.
  - intros H. injection H as <- <-. split; [reflexivity |]. left.
    rewrite (cat_raised _ _ C). split; [reflexivity |].
    split; [cbn; tauto | discriminate].
Qed.

(** X3.  When the split and the two loaders get built there is one
    validation example at least, so the divisor of line 289 is never 0; the
    validation loader's batch size lies between 1 and that count and within
    the batch size asked for; both loaders share one dataset, whose two
    tensors have the same number of rows. *)
Theorem built_loaders_have_validation (pbank obank : list (tensor elt))
  (bs : Z) (vf : float) (N : Z) (perm : list nat) (sp : split)
  (tl vl : loader) :
  prepare pbank obank bs vf N perm = Ok (sp, (tl, vl)) ->
  1 <= Split.num_validation_examples sp
  /\ Split.num_validation_examples sp = N - num_training_examples sp
  /\ 1 <= batch_size vl <= Split.num_validation_examples sp
  /\ batch_size vl <= bs
  /\ batch_size tl = bs
  /\ sampler tl = train_indices sp /\ sampler vl = val_indices sp
  /\ drop_last tl = true /\ drop_last vl = false
  /\ dataset tl = dataset vl
  /\ rows (fst (dataset tl)) = rows (snd (dataset tl)).
Proof.
  unfold prepare, make_split.
  destruct (training_count vf N) as [k | e]; [| discriminate].
  cbn [bind]. unfold make_loaders.
  destruct (cat obank) as [o | e]; [| discriminate].
  destruct (cat pbank) as [p | e]; [| discriminate]. cbn [bind].
  unfold TensorDataset.
  destruct (Nat.eqb_spec (rows o) (rows p)) as [Hr | Hr]; [| discriminate].
  cbn [bind]. unfold DataLoader.
  destruct (bs <=? 0); [discriminate |]. cbn [bind].
  cbn [num_training_examples].
  destruct (Z.leb_spec (Z.min bs (N - k)) 0) as [Hle | Hgt];
    [discriminate |]. cbn [bind].
  intros E. injection E as <- <- <-. cbn.
  repeat split; auto; lia.
Qed.

(** X6.  A call that returns has appended one entry to each of the two
    summary lists: a number of epochs above [stop_after_epochs] (when that is
    1 at least), since one epoch at least improved, and a best score strictly
    above the sentinel -1e100. *)
Theorem returned_fit_has_improved (fuel : nat) (bs : Z) (lr vf : float)
  (stop : Z) (self self' : snl) :
  1 <= stop ->
  _fit_likelihood fuel bs lr vf stop self = Some (Returned self') ->
  exists n b,
    s_epochs (summary self') = s_epochs (summary self) ++ [n]
    /\ s_best_validation_log_probs (summary self')
       = s_best_validation_log_probs (summary self) ++ [b]
    /\ stop + 1 <= n
    /\ fgt b neg_1e100 = true.
Proof.
  intros Hstop H.
  destruct (fit_likelihood_runs_loop _ _ _ _ _ _ _ H)
    as [(Hr & _) | (tl & vl & nv & w & lo & _ & L & Hr & _ & Hsum)];
    [discriminate |].
  destruct lo as [m | e m]; [| discriminate].
  destruct (Hsum eq_refl) as [He Hb]. cbn [state_of] in He, Hb.
  destruct (returned_loop_has_improved _ _ _ _
              (mkMachine (neural_net self) w init_locals) _ _ eq_refl L)
    as (_ & Hbeat & Hn).
  exists (epochs (loc m)), (best_validation_log_prob (loc m)).
  auto.
Qed.

(** Lines 178-179: [self._summary['epochs'][-1]] and
    [self._summary['best-validation-log-probs'][-1]], the two numbers of the
    round's status text; [None] stands for the [IndexError] of an empty
    list. *)
Definition last_item {A : Type} (xs : list A) : option A :=
  match rev xs with
  | [] => None
  | x :: _ => Some x
  end.

Definition round_stats (self : snl) : option (Z * float) :=
  match last_item (s_epochs (summary self)) with
  | None => None
  | Some n =>
      match last_item (s_best_validation_log_probs (summary self)) with
      | None => None
      | Some b => Some (n, b)
      end
  end.

Lemma last_item_app {A : Type} (xs : list A) (x : A) :
  last_item (xs ++ [x]) = Some x.
Proof. unfold last_item. rewrite rev_app_distr. reflexivity. Qed.

(** X11.  On a fresh object the two lookups of the status text would fail;
    after a call of the trainer that returned they succeed and give the
    entries this call appended, the epochs it trained being 1 at least. *)
Theorem round_stats_after_fit (fuel : nat) (bs : Z) (lr vf : float)
  (stop : Z) (self self' : snl) :
  _fit_likelihood fuel bs lr vf stop self = Some (Returned self') ->
  (forall de sbs nm w, round_stats (init de sbs nm w) = None)
  /\ exists n b,
      round_stats self' = Some (n, b)
      /\ 1 <= n
      /\ s_epochs (summary self') = s_epochs (summary self) ++ [n]
      /\ s_best_validation_log_probs (summary self')
         = s_best_validation_log_probs (summary self) ++ [b].
Proof.
  intros H. split; [reflexivity |].
  destruct (fit_likelihood_runs_loop _ _ _ _ _ _ _ H)
    as [(Hr & _) | (tl & vl & nv & w & lo & _ & L & Hr & _ & Hsum)];
    [discriminate |].
  destruct lo as [m | e m]; [| discriminate].
  destruct (Hsum eq_refl) as [He Hb]. cbn [state_of] in He, Hb.
  destruct (returned_loop_has_improved _ _ _ _
              (mkMachine (neural_net self) w init_locals) _ _ eq_refl L)
    as (Hpos & _).
  exists (epochs (loc m)), (best_validation_log_prob (loc m)).
  unfold round_stats. rewrite He, Hb, !last_item_app. auto.
Qed.

(** *** Further facts about [__call__] *)

(** X8.  The bank is cumulative: after a run of [num_rounds] rounds that
    returned, pooling either bank gives [num_rounds * n] examples, [n] being
    the number of simulations per round (the simulator returning as many
    rows as it was asked for). *)
Theorem pooled_examples_after_run (fuel : nat) (num_rounds n : Z)
  (de : params) (sbs : Z) (nm : metrics) (w : world) (self : snl)
  (p o : tensor elt) :
  simulate_contract ->
  0 <= n ->
  __call__ fuel num_rounds n (init de sbs nm w) = Some (Returned self) ->
  cat (parameter_bank self) = Ok p ->
  cat (observation_bank self) = Ok o ->
  rows p = (Z.to_nat num_rounds * Z.to_nat n)%nat
  /\ rows o = (Z.to_nat num_rounds * Z.to_nat n)%nat.
Proof.
  intros Hsim Hn H Hp Ho. unfold __call__, range in H.
  destruct (for_rounds_log _ _ _ _ _ _ H)
    as (begun & ps & os & _ & Hr & _ & Hps & Hos & Lp & Lo & Hrows).
  cbn [init parameter_bank observation_bank app state_of] in Hps, Hos.
  destruct (Hrows Hsim Hn) as [Fp Fo].
  rewrite (Hr eq_refl) in Lp, Lo. subst ps os.
  rewrite (cat_rows_uniform _ _ _ Hp Fp), (cat_rows_uniform _ _ _ Ho Fo).
  rewrite Lp, Lo. auto.
Qed.

Lemma round_body_raised (fuel : nat) (n round_ : Z) (self s : snl)
  (e : exn) :
  round_body fuel n round_ self = Some (Raised e s) ->
  exists self1,
    _fit_likelihood fuel 100 lit_5e_4 lit_0_1 20 self1 = Some (Raised e s)
    /\ parameter_bank self1
       = parameter_bank self
         ++ [fst (fst (simulate_in_batches (proposal round_)
                         (neural_net self) n (simulation_batch_size self)
                         (env self)))]
    /\ observation_bank self1
       = observation_bank self
         ++ [snd (fst (simulate_in_batches (proposal round_)
                         (neural_net self) n (simulation_batch_size self)
                         (env self)))].
Proof.
  unfold round_body.
  destruct (simulate_in_batches _ _ _ _ _) as [[ps os] w1]. cbn [fst snd].
  destruct (_fit_likelihood _ _ _ _ _ _) as [[self2 | e2 self2] |] eqn:F;
    try discriminate.
  - destruct (summarize _ _ _ _ _). discriminate.
  - intros H. injection H as <- <-. eexists. split; [exact F |].
    split; reflexivity.
Qed.

Lemma for_rounds_raised (fuel : nat) (n : Z) (rounds : list Z) :
  forall (self s : snl) (e : exn),
    for_rounds fuel n rounds self = Some (Raised e s) ->
    exists self1,
      _fit_likelihood fuel 100 lit_5e_4 lit_0_1 20 self1
      = Some (Raised e s).
Proof.
  induction rounds as [| round_ rest IH]; intros self s e;
    cbn [for_rounds]; [discriminate |].
  destruct (round_body fuel n round_ self) as [[self' | e' self'] |] eqn:R;
    [apply IH | | discriminate].
  intros H. injection H as <- <-.
  destruct (round_body_raised _ _ _ _ _ _ R) as (self1 & F & _).
  eauto.
Qed.

(** The rows of all the tensors of a bank. *)
Definition total_rows (ts : list (tensor elt)) : nat :=
  fold_right (fun u n => (rows u + n)%nat) 0%nat ts.

(** X9.  When a run stops on the assertion of [TensorDataset], the two
    banks it leaves differ in their total number of rows: the simulator
    returned more parameter rows than observation rows in some round, or
    fewer. *)
Theorem dataset_assertion_means_row_mismatch (fuel : nat)
  (num_rounds n : Z) (self s : snl) :
  __call__ fuel num_rounds n self = Some (Raised AssertionError_dataset s) ->
  total_rows (parameter_bank s) <> total_rows (observation_bank s).
Proof.
  unfold __call__. intros H.
  destruct (for_rounds_raised _ _ _ _ _ _ H) as (self1 & F).
  destruct (fit_keeps_banks _ _ _ _ _ _ _ F) as (Hp & Ho & _).
  cbn [state_of] in Hp, Ho.
  destruct (fit_raised_cases _ _ _ _ _ _ _ _ F)
    as (_ & [(_ & _ & Hass) | K]); [| discriminate].
  destruct (Hass eq_refl) as (o & p & Co & Cp & Hne).
  rewrite Hp, Ho. unfold total_rows.
  rewrite <- (cat_rows _ _ Co), <- (cat_rows _ _ Cp). auto.
Qed.


End SNL.
End SNL.

(* ------------------------------------------------------------------ *)
(** ** [class PotentialFunctionProvider] (lines 315-396) *)

Module Potential.
Import Torch.

(** The two bound methods [__call__] can return. *)
Inductive potential_fn : Type :=
| pyro_potential_fn
| np_potential_fn.

Section Provider.

(** Tensor elements, the prior and the likelihood network. *)
Variables (scalar prior_t nn_t : Type).

(** [prior.log_prob(x)] and [likelihood_nn.log_prob(inputs, context)],
    followed as calls that return. *)
Variable prior_log_prob : prior_t -> tensor scalar -> tensor scalar.
Variable nn_log_prob : nn_t -> tensor scalar -> tensor scalar -> tensor scalar.

(** [a + b] and [-a] on tensors. *)
Variable tadd : tensor scalar -> tensor scalar -> tensor scalar.
Variable tneg : tensor scalar -> tensor scalar.

(** Conversion of one array element to a 32-bit float. *)
Variable to_float32 : scalar -> scalar.

(** The attributes [__call__] sets; the class sets none at construction. *)
Record provider : Type := mkProvider
  { likelihood_nn : nn_t;
    prior : prior_t;
    observation : tensor scalar }.

(** [mcmc_method in ("slice", "hmc", "nuts")] *)
Definition is_pyro_method (mcmc_method : string) : bool :=
  existsb (String.eqb mcmc_method) ["slice"; "hmc"; "nuts"]%string.

(** Lines 354-361: bind the three attributes, pick the method. *)
Definition __call__ (prior : prior_t) (likelihood_nn : nn_t)
  (observation : tensor scalar) (mcmc_method : string)
  : provider * potential_fn :=
  (mkProvider likelihood_nn prior observation,
   if is_pyro_method mcmc_method then pyro_potential_fn else np_potential_fn).

(** [torch.FloatTensor(parameters)] of a one-dimensional array. *)
Definition FloatTensor (parameters : list scalar) : tensor scalar :=
  mkTensor [length parameters] (map to_float32 parameters).

(** Lines 372-378. *)
Definition np_potential (self : provider) (parameters : list scalar)
  : tensor scalar :=
  let parameters := FloatTensor parameters in
  let log_likelihood :=
    nn_log_prob (likelihood_nn self) (reshape_row (observation self))
      (reshape_row parameters) in
  tadd log_likelihood (prior_log_prob (prior self) parameters).

(** Lines 390-396; the dictionary is the list of its items in insertion
    order, [next(iter(parameters.values()))] its first value. *)
Definition pyro_potential (self : provider)
  (parameters : list (string * tensor scalar)) : result (tensor scalar) :=
  match parameters with
  | [] => Raise StopIteration
  | (_, parameter) :: _ =>
      let log_likelihood :=
        nn_log_prob (likelihood_nn self) (reshape_row (observation self))
          (reshape_row parameter) in
      Ok (tneg (tadd log_likelihood (prior_log_prob (prior self) parameter)))
  end.

(** The spec's [asVector]: the flat numeric vector of a parameter tensor. *)
Definition asVector (p : tensor scalar) : list scalar := data p.

(** *** Facts *)

Lemma reshape_row_data (t u : tensor scalar) :
  data t = data u -> reshape_row t = reshape_row u.
Proof. unfold reshape_row. intros ->. reflexivity. Qed.

Lemma map_fixed (xs : list scalar) :
  Forall (fun x => to_float32 x = x) xs -> map to_float32 xs = xs.
Proof.
  induction 1 as [| x xs Hx _ IH]; cbn [map]; [reflexivity |].
  rewrite Hx, IH. reflexivity.
Qed.

(** C1.  For one bound provider the structured potential of a single site
    is the negation of the flat potential of the same parameter as a vector.
    "Modulo tensor-shape normalization": the parameter's elements are 32-bit
    floats already, and the prior's log-density does not depend on whether
    the parameter comes as a row [(1, d)] or flat [(d,)]. *)
Theorem potentials_sign_opposite (self : provider) (site : string)
  (p : tensor scalar) :
  Forall (fun x => to_float32 x = x) (data p) ->
  prior_log_prob (prior self) (FloatTensor (asVector p))
  = prior_log_prob (prior self) p ->
  pyro_potential self [(site, p)] = Ok (tneg (np_potential self (asVector p))).
Proof.
  intros H32 Hprior. unfold pyro_potential, np_potential, asVector in *.
  assert (Hd : data (FloatTensor (data p)) = data p)
    by (apply map_fixed; exact H32).
  rewrite (reshape_row_data _ _ Hd), Hprior. reflexivity.
Qed.

(** C9.  A method name other than the three pyro samplers raises nothing:
    [__call__] binds the three attributes and returns the numpy potential. *)
Theorem unknown_method_gets_np_potential (prior : prior_t)
  (likelihood_nn : nn_t) (observation : tensor scalar)
  (mcmc_method : string) :
  mcmc_method <> "slice"%string -> mcmc_method <> "hmc"%string ->
  mcmc_method <> "nuts"%string ->
  __call__ prior likelihood_nn observation mcmc_method
  = (mkProvider likelihood_nn prior observation, np_potential_fn).
Proof.
  intros H1 H2 H3. unfold __call__, is_pyro_method. cbn [existsb].
  apply String.eqb_neq in H1, H2, H3. rewrite H1, H2, H3. reflexivity.
Qed.

(** C10.  The structured potential is computed from the first value of the
    dictionary alone.  A dictionary with one site or more has a first item
    [(site, p)], and the result is [-(log_prob(observation | p) +
    prior.log_prob(p))], observation and [p] passed to the network as single
    rows: the tensor of the first site, and nothing of the site's name or of
    the further sites.  So every dictionary whose first value is [p] gives
    this same result. *)
Theorem pyro_potential_first_site_only (self : provider)
  (parameters : list (string * tensor scalar)) :
  parameters <> [] ->
  exists site p others,
    parameters = (site, p) :: others
    /\ pyro_potential self parameters
       = Ok (tneg (tadd (nn_log_prob (likelihood_nn self)
                           (reshape_row (observation self)) (reshape_row p))
                        (prior_log_prob (prior self) p)))
    /\ forall site' others',
        pyro_potential self ((site', p) :: others')
        = pyro_potential self parameters.
Proof.
  destruct parameters as [| [site p] others]; [congruence |].
  intros _. exists site, p, others.
  split; [reflexivity |]. split; reflexivity.
Qed.

(** *** Further facts *)

(** X12.  The structured potential is returned for exactly three method
    names, compared as they are written: "slice", "hmc" and "nuts". *)
Theorem pyro_dispatch_iff (prior : prior_t) (likelihood_nn : nn_t)
  (observation : tensor scalar) (mcmc_method : string) :
  snd (__call__ prior likelihood_nn observation mcmc_method)
  = pyro_potential_fn
  <-> (mcmc_method = "slice" \/ mcmc_method = "hmc"
       \/ mcmc_method = "nuts")%string.
Proof.
  unfold __call__, is_pyro_method. cbn [existsb snd].
  destruct (String.eqb_spec mcmc_method "slice") as [-> | H1];
    [cbn; tauto |].
  destruct (String.eqb_spec mcmc_method "hmc") as [-> | H2];
    [cbn; tauto |].
  destruct (String.eqb_spec mcmc_method "nuts") as [-> | H3];
    [cbn; tauto |].
  cbn. split; [discriminate | tauto].
Qed.

End Provider.
End Potential.

(* ------------------------------------------------------------------ *)
(** ** A small instance

    A network whose parameters count the epochs it was trained for, a
    validation score that climbs for three epochs and then stays, identity
    permutations, a simulator that returns [n] rows.  The statements above
    are applied to it. *)

Module Demo.
Import Binary64 Torch Split SNL.

Definition randperm (n : nat) (w : unit) : list nat * unit := (seq 0 n, w).

Definition Adam (lr : float) (w : unit) : unit := w.

Definition train_pass (ld : loader Z) (w : unit) (p : Z) : unit * Z :=
  (w, p + 1).

Definition validation_pass (ld : loader Z) (w : unit) (p : Z)
  : unit * list float :=
  (w, [float_of_int (Z.min p 3)]).

Definition simulate_in_batches (fn : sample_fn) (p n bs : Z) (w : unit)
  : (tensor Z * tensor Z) * unit :=
  ((mkTensor [Z.to_nat n; 1%nat] (repeat 0 (Z.to_nat n)),
    mkTensor [Z.to_nat n; 2%nat] (repeat 1 (2 * Z.to_nat n))), w).

Definition summarize (s : summary_t unit) (round_ : Z)
  (pbank obank : list (tensor Z)) (w : unit) : summary_t unit * unit :=
  (s, w).

Definition bank (n : Z) : tensor Z * tensor Z :=
  fst (simulate_in_batches prior_sample 0 n 1 tt).

Definition train_loader : loader Z :=
  mkLoader Z (bank 10) 100 true (seq 0 9).

Definition val_loader : loader Z :=
  mkLoader Z (bank 10) 1 false [9%nat].

Definition start : machine Z unit := mkMachine Z unit 0 tt (init_locals Z).

Definition fresh : snl Z Z unit unit := init Z Z unit unit 0 1 tt tt.

(** One round of [n] simulations done, the trainer not yet called. *)
Definition simulated (n : Z) : snl Z Z unit unit :=
  mkSnl Z Z unit unit 0 1 [fst (bank n)] [snd (bank n)]
        (mkSummary unit [] [] tt) tt [(0, prior_sample)].

Definition fit :=
  _fit_likelihood Z Z unit unit randperm Adam train_pass validation_pass.

Definition run :=
  SNL.__call__ Z Z unit unit randperm Adam train_pass validation_pass
    simulate_in_batches summarize.

(** *** The training loop on the instance: scores 1, 2, 3, 3, 3 with
    [stop_after_epochs = 2]; the loop leaves after epoch 5 and restores the
    parameters of epoch 3. *)

Local Abbreviation body :=
  (epoch_body Z Z unit train_pass validation_pass train_loader val_loader 1).
Local Abbreviation loop :=
  (fit_loop Z Z unit train_pass validation_pass train_loader val_loader 1 2).
Local Abbreviation after :=
  (after_epochs Z Z unit train_pass validation_pass train_loader val_loader 1).
Local Abbreviation best m := (best_validation_log_prob Z (loc Z unit m)).
Local Abbreviation stall m :=
  (epochs_since_last_improvement Z (loc Z unit m)).
Local Abbreviation snapshot m := (best_model_state_dict Z (loc Z unit m)).
Local Abbreviation score m := (validation_log_prob Z (loc Z unit m)).



(** *** The trainer and the round loop on the instance *)

Lemma nothing_above_infinity (v : float) : fgt v (S754_infinity false) = false.
Proof. destruct v as [s | [] | | s m e]; reflexivity. Qed.

Lemma fit_terminates_demo :
  (forall vl nv w p w' v,
      validation_score Z Z unit validation_pass vl nv w p = (w', Ok v) ->
      fgt v (S754_infinity false) = false)
  /\ 0 < 20
  /\ exists fuel out,
      fit fuel 100 lit_5e_4 lit_0_1 20 (simulated 10) = Some out.
Proof.
  split; [intros; apply nothing_above_infinity |].
  split; [lia |].
  apply (fit_terminates Z Z unit unit randperm Adam train_pass
           validation_pass 100 lit_5e_4 lit_0_1 20 (simulated 10)
           (S754_infinity false));
    [intros; apply nothing_above_infinity | lia].
Defined.


Lemma simulate_contract_demo :
  simulate_contract Z Z unit simulate_in_batches.
Proof. intros fn p n bs w Hn. split; reflexivity. Qed.


(** Two rounds of ten simulations: both banks hold two tensors of ten
    rows. *)
Example two_rounds_banks :
  exists self,
    run 30 2 10 fresh = Some (Returned self)
    /\ map rows (parameter_bank Z Z unit unit self) = [10%nat; 10%nat]
    /\ map rows (observation_bank Z Z unit unit self) = [10%nat; 10%nat]
    /\ s_epochs unit (summary Z Z unit unit self) = [23; 21].
Proof.
  eexists. split; [vm_compute; reflexivity |]. repeat split.
Qed.

(** *** The split on the instance *)

Lemma split_takes_truncated_prefix_demo :
  Permutation (seq 0 1000) (seq 0 1000)
  /\ training_count lit_0_1 (Z.of_nat 1000) = Ok 900
  /\ 0 <= 900
  /\ exists sp,
      make_split lit_0_1 (Z.of_nat 1000) (seq 0 1000) = Ok sp
      /\ num_training_examples sp = 900
      /\ Split.num_validation_examples sp = Z.of_nat 1000 - 900
      /\ train_indices sp = firstn (Z.to_nat 900) (seq 0 1000)
      /\ val_indices sp = skipn (Z.to_nat 900) (seq 0 1000)
      /\ Permutation (train_indices sp ++ val_indices sp) (seq 0 1000)
      /\ (900 <= Z.of_nat 1000 ->
          Z.of_nat (length (train_indices sp)) = 900
          /\ Z.of_nat (length (val_indices sp)) = Z.of_nat 1000 - 900).
Proof.
  split; [apply Permutation_refl |].
  split; [vm_compute; reflexivity |].
  split; [lia |].
  apply (split_takes_truncated_prefix lit_0_1 1000 (seq 0 1000) 900);
    [apply Permutation_refl | vm_compute; reflexivity | lia].
Defined.

(** Five examples at the default fraction: [validation_fraction * N] is 0.5,
    below 1, and still the split is 4/1 and the trainer runs its 23 epochs
    and returns. *)
Lemma degenerate_split_still_trains :
  spec_degenerate lit_0_1 5 = true
  /\ exists self,
      fit 30 100 lit_5e_4 lit_0_1 20 (simulated 5) = Some (Returned self)
      /\ s_epochs unit (summary Z Z unit unit self) = [23].
Proof.
  split; [vm_compute; reflexivity |].
  eexists. split; [vm_compute; reflexivity |]. reflexivity.
Qed.

Lemma empty_validation_split_raises_demo :
  (cat [fst (bank 5)] = Ok (fst (bank 5))
   /\ cat [snd (bank 5)] = Ok (snd (bank 5))
   /\ rows (snd (bank 5)) = rows (fst (bank 5))
   /\ 0 < 100
   /\ training_count lit_0_1 5 = Ok 4)
  /\ (5 - 4 <= 0 ->
      prepare Z [fst (bank 5)] [snd (bank 5)] 100 lit_0_1 5 (seq 0 5)
      = Raise ValueError_batch_size)
  /\ (1 <= 5 - 4 ->
      exists tl vl : loader Z,
        prepare Z [fst (bank 5)] [snd (bank 5)] 100 lit_0_1 5 (seq 0 5)
        = Ok (mkSplit 4 (5 - 4) (slice_to 4 (seq 0 5))
                      (slice_from 4 (seq 0 5)),
              (tl, vl))
        /\ sampler Z tl = slice_to 4 (seq 0 5)
        /\ sampler Z vl = slice_from 4 (seq 0 5)).
Proof.
  split; [repeat split; (reflexivity || lia) |].
  apply (empty_validation_split_raises Z [fst (bank 5)] [snd (bank 5)]
           (fst (bank 5)) (snd (bank 5)) 100 5 4 lit_0_1 (seq 0 5));
    (reflexivity || lia).
Defined.

(** A bank of no example at all: the validation loader is refused. *)
Example empty_bank_raises :
  exists self,
    fit 30 100 lit_5e_4 lit_0_1 20 (simulated 0)
    = Some (Raised ValueError_batch_size self).
Proof. eexists. vm_compute. reflexivity. Qed.

(** *** The potentials on an instance: integer tensors, a prior and a
    network that add up the elements they are given *)

Definition total (t : tensor Z) : Z := fold_right Z.add 0 (data t).

Definition prior_log_prob (pr : unit) (x : tensor Z) : tensor Z :=
  mkTensor [] [- total x].

Definition nn_log_prob (nn : unit) (inputs context : tensor Z) : tensor Z :=
  mkTensor [1%nat] [total inputs - total context].

Definition tadd (a b : tensor Z) : tensor Z :=
  mkTensor (shape a) (map (fun x => x + total b) (data a)).

Definition tneg (a : tensor Z) : tensor Z :=
  mkTensor (shape a) (map Z.opp (data a)).

Definition to_float32 (x : Z) : Z := x.

Definition bound : Potential.provider Z unit unit :=
  fst (Potential.__call__ Z unit unit tt tt (mkTensor [2%nat] [5; 8])
         "nuts").

Definition theta : tensor Z := mkTensor [1%nat; 3%nat] [1; 2; 3].

Lemma potentials_sign_opposite_demo :
  Forall (fun x => to_float32 x = x) (data theta)
  /\ prior_log_prob (Potential.prior Z unit unit bound)
       (Potential.FloatTensor Z to_float32 (Potential.asVector Z theta))
     = prior_log_prob (Potential.prior Z unit unit bound) theta
  /\ Potential.np_potential Z unit unit prior_log_prob nn_log_prob tadd
       to_float32 bound (Potential.asVector Z theta)
     = mkTensor [1%nat] [1]
  /\ Potential.pyro_potential Z unit unit prior_log_prob nn_log_prob tadd
       tneg bound [("theta"%string, theta)]
     = Ok (tneg
             (Potential.np_potential Z unit unit prior_log_prob nn_log_prob
                tadd to_float32 bound (Potential.asVector Z theta))).
Proof.
  split; [repeat constructor |].
  split; [reflexivity |].
  split; [reflexivity |].
  apply (Potential.potentials_sign_opposite Z unit unit prior_log_prob
           nn_log_prob tadd tneg to_float32 bound "theta"%string theta);
    [repeat constructor | reflexivity].
Defined.

Lemma unknown_method_gets_np_potential_demo :
  ("slice-np" <> "slice" /\ "slice-np" <> "hmc" /\ "slice-np" <> "nuts")%string
  /\ Potential.__call__ Z unit unit tt tt (mkTensor [2%nat] [5; 8])
       "slice-np"
     = (Potential.mkProvider Z unit unit tt tt (mkTensor [2%nat] [5; 8]),
        Potential.np_potential_fn).
Proof.
  split; [repeat split; discriminate |].
  apply (Potential.unknown_method_gets_np_potential Z unit unit tt tt
           (mkTensor [2%nat] [5; 8]) "slice-np"%string);
    discriminate.
Defined.

(** A method name that is no sampler at all gets the numpy potential too. *)
Example misspelt_method :
  snd (Potential.__call__ Z unit unit tt tt (mkTensor [2%nat] [5; 8]) "NUTS")
  = Potential.np_potential_fn.
Proof. reflexivity. Qed.

(** Two sites: the potential is that of the first, whichever it is. *)
Definition phi : tensor Z := mkTensor [1%nat] [100].

Lemma pyro_potential_first_site_only_demo :
  [("theta"%string, theta); ("phi"%string, phi)] <> []
  /\ Potential.pyro_potential Z unit unit prior_log_prob nn_log_prob tadd
       tneg bound [("theta"%string, theta); ("phi"%string, phi)]
     = Ok (mkTensor [1%nat] [-1])
  /\ Potential.pyro_potential Z unit unit prior_log_prob nn_log_prob tadd
       tneg bound [("phi"%string, phi); ("theta"%string, theta)]
     = Ok (mkTensor [1%nat] [187])
  /\ exists site p others,
      [("theta"%string, theta); ("phi"%string, phi)] = (site, p) :: others
      /\ Potential.pyro_potential Z unit unit prior_log_prob nn_log_prob
           tadd tneg bound [("theta"%string, theta); ("phi"%string, phi)]
         = Ok (tneg
                 (tadd
                    (nn_log_prob (Potential.likelihood_nn Z unit unit bound)
                       (reshape_row (Potential.observation Z unit unit bound))
                       (reshape_row p))
                    (prior_log_prob (Potential.prior Z unit unit bound) p)))
      /\ forall site' others',
          Potential.pyro_potential Z unit unit prior_log_prob nn_log_prob
            tadd tneg bound ((site', p) :: others')
          = Potential.pyro_potential Z unit unit prior_log_prob nn_log_prob
              tadd tneg bound
              [("theta"%string, theta); ("phi"%string, phi)].
Proof.
  split; [discriminate |].
  split; [reflexivity |]. split; [reflexivity |].
  apply (Potential.pyro_potential_first_site_only Z unit unit prior_log_prob
           nn_log_prob tadd tneg bound
           [("theta"%string, theta); ("phi"%string, phi)]).
  discriminate.
Defined.

(** An empty dictionary has no first value. *)
Example empty_dictionary_raises :
  Potential.pyro_potential Z unit unit prior_log_prob nn_log_prob tadd tneg
    bound []
  = Raise StopIteration.
Proof. reflexivity. Qed.

(** *** Further facts on the instance *)

(** 1.5 as a validation fraction: ten examples give a training count
    of -5. *)
Definition one_and_half : float := S754_finite false 6755399441055744 (-52).

Lemma split_partitions_indices_demo :
  Permutation (seq 0 10) (seq 0 10)
  /\ exists sp,
      make_split one_and_half (Z.of_nat 10) (seq 0 10) = Ok sp
      /\ num_training_examples sp = -5
      /\ train_indices sp = [0; 1; 2; 3; 4]%nat
      /\ val_indices sp = [5; 6; 7; 8; 9]%nat
      /\ train_indices sp ++ val_indices sp = seq 0 10
      /\ NoDup (train_indices sp ++ val_indices sp)
      /\ (forall i, In i (train_indices sp) -> ~ In i (val_indices sp))
      /\ (forall i, (i < 10)%nat <->
                    In i (train_indices sp) \/ In i (val_indices sp)).
Proof.
  split; [apply Permutation_refl |].
  eexists. split; [vm_compute; reflexivity |].
  split; [reflexivity |]. split; [reflexivity |]. split; [reflexivity |].
  apply (split_partitions_indices one_and_half 10 (seq 0 10));
    [apply Permutation_refl | vm_compute; reflexivity].
Defined.

Lemma negative_count_overstates_validation_demo :
  length (seq 0 10) = 10%nat
  /\ exists sp,
      make_split one_and_half (Z.of_nat 10) (seq 0 10) = Ok sp
      /\ num_training_examples sp < 0
      /\ Split.num_validation_examples sp = 15
      /\ Z.of_nat (length (val_indices sp))
         = Z.min (Z.of_nat 10) (- num_training_examples sp)
      /\ Z.of_nat (length (train_indices sp))
         = Z.max 0 (Z.of_nat 10 + num_training_examples sp)
      /\ Split.num_validation_examples sp
         = Z.of_nat 10 - num_training_examples sp
      /\ ((1 <= 10)%nat ->
          Z.of_nat (length (val_indices sp))
          < Split.num_validation_examples sp).
Proof.
  split; [reflexivity |].
  eexists. split; [vm_compute; reflexivity |].
  split; [reflexivity |]. split; [reflexivity |].
  apply (negative_count_overstates_validation one_and_half 10 (seq 0 10));
    [reflexivity | vm_compute; reflexivity | reflexivity].
Defined.

Lemma built_loaders_have_validation_demo :
  exists sp tl vl,
    prepare Z [fst (bank 5)] [snd (bank 5)] 100 lit_0_1 5 (seq 0 5)
    = Ok (sp, (tl, vl))
    /\ Split.num_validation_examples sp = 1
    /\ batch_size Z vl = 1
    /\ 1 <= Split.num_validation_examples sp
    /\ Split.num_validation_examples sp = 5 - num_training_examples sp
    /\ 1 <= batch_size Z vl <= Split.num_validation_examples sp
    /\ batch_size Z vl <= 100
    /\ batch_size Z tl = 100
    /\ sampler Z tl = train_indices sp /\ sampler Z vl = val_indices sp
    /\ drop_last Z tl = true /\ drop_last Z vl = false
    /\ dataset Z tl = dataset Z vl
    /\ rows (fst (dataset Z tl)) = rows (snd (dataset Z tl)).
Proof.
  eexists. eexists. eexists.
  split; [vm_compute; reflexivity |].
  split; [reflexivity |]. split; [reflexivity |].
  apply (built_loaders_have_validation Z [fst (bank 5)] [snd (bank 5)]
           100 lit_0_1 5 (seq 0 5)).
  vm_compute. reflexivity.
Defined.

(** A network whose validation scores are all NaN. *)
Definition nan_validation_pass (ld : loader Z) (w : unit) (p : Z)
  : unit * list float :=
  (w, [S754_nan]).

Lemma never_improving_raises_demo :
  (1 <> 0 /\ 1 <= 2 /\ loc Z unit start = init_locals Z)
  /\ (forall w p w' v,
        validation_score Z Z unit nan_validation_pass val_loader 1 w p
        = (w', Ok v) ->
        fgt v neg_1e100 = false)
  /\ exists mn,
      after_epochs Z Z unit train_pass nan_validation_pass train_loader
        val_loader 1 (Z.to_nat 2) start = Some mn
      /\ fit_loop Z Z unit train_pass nan_validation_pass train_loader
           val_loader 1 2 (Z.to_nat 2) start
         = Some (Raised AttributeError_load_none mn)
      /\ epochs Z (loc Z unit mn) = 2
      /\ best_model_state_dict Z (loc Z unit mn) = None.
Proof.
  assert (H : forall w p w' v,
             validation_score Z Z unit nan_validation_pass val_loader 1 w p
             = (w', Ok v) ->
             fgt v neg_1e100 = false)
    by (intros w p w' v E; vm_compute in E; injection E as _ <-;
        reflexivity).
  split; [split; [lia | split; [lia | reflexivity]] |].
  split; [exact H |].
  apply (never_improving_raises Z Z unit train_pass nan_validation_pass
           train_loader val_loader 1 2 start);
    [lia | lia | reflexivity | exact H].
Defined.

Lemma returned_fit_has_improved_demo :
  1 <= 20
  /\ exists self',
      fit 30 100 lit_5e_4 lit_0_1 20 (simulated 10) = Some (Returned self')
      /\ exists n b,
          s_epochs unit (summary Z Z unit unit self')
          = s_epochs unit (summary Z Z unit unit (simulated 10)) ++ [n]
          /\ s_best_validation_log_probs unit (summary Z Z unit unit self')
             = s_best_validation_log_probs unit
                 (summary Z Z unit unit (simulated 10)) ++ [b]
          /\ 20 + 1 <= n
          /\ fgt b neg_1e100 = true.
Proof.
  split; [lia |].
  eexists. split; [vm_compute; reflexivity |].
  apply (returned_fit_has_improved Z Z unit unit randperm Adam train_pass
           validation_pass 30 100 lit_5e_4 lit_0_1 20 (simulated 10));
    [lia | vm_compute; reflexivity].
Defined.

Lemma nonpositive_patience_one_epoch_demo :
  (1 <> 0 /\ 0 <= 0 /\ 0 <= stall start)
  /\ exists m1,
      epoch_body Z Z unit train_pass validation_pass train_loader val_loader
        1 start = Returned m1
      /\ fit_loop Z Z unit train_pass validation_pass train_loader
           val_loader 1 0 (S 9) start
         = Some (finish Z unit m1)
      /\ epochs Z (loc Z unit m1) = epochs Z (loc Z unit start) + 1.
Proof.
  split; [split; [lia | split; [lia | vm_compute; discriminate]] |].
  apply (nonpositive_patience_one_epoch Z Z unit train_pass validation_pass
           train_loader val_loader 1 0 start 9);
    [lia | lia | vm_compute; discriminate].
Defined.

(** The states the instance reaches, computed once. *)
Definition reached (o : option (outcome (snl Z Z unit unit)))
  : snl Z Z unit unit :=
  match o with
  | Some out => state_of out
  | None => fresh
  end.


Definition after_two_rounds : snl Z Z unit unit :=
  Eval vm_compute in reached (run 30 2 10 fresh).


Lemma pooled_examples_after_run_demo :
  (simulate_contract Z Z unit simulate_in_batches
   /\ 0 <= 10
   /\ run 30 2 10 fresh = Some (Returned after_two_rounds)
   /\ cat (parameter_bank Z Z unit unit after_two_rounds)
      = Ok (mkTensor [20%nat; 1%nat] (repeat 0 20))
   /\ cat (observation_bank Z Z unit unit after_two_rounds)
      = Ok (mkTensor [20%nat; 2%nat] (repeat 1 40)))
  /\ rows (mkTensor [20%nat; 1%nat] (repeat 0 20))
     = (Z.to_nat 2 * Z.to_nat 10)%nat
  /\ rows (mkTensor [20%nat; 2%nat] (repeat 1 40))
     = (Z.to_nat 2 * Z.to_nat 10)%nat.
Proof.
  split.
  - split; [exact simulate_contract_demo |]. split; [lia |].
    split; [vm_compute; reflexivity |].
    split; vm_compute; reflexivity.
  - apply (pooled_examples_after_run Z Z unit unit randperm Adam train_pass
             validation_pass simulate_in_batches summarize 30 2 10 0 1 tt tt
             after_two_rounds);
      [exact simulate_contract_demo | lia | vm_compute; reflexivity
       | vm_compute; reflexivity | vm_compute; reflexivity].
Defined.

(** A simulator that returns one observation too many. *)
Definition lopsided_simulate (fn : sample_fn) (p n bs : Z) (w : unit)
  : (tensor Z * tensor Z) * unit :=
  ((mkTensor [Z.to_nat n; 1%nat] (repeat 0 (Z.to_nat n)),
    mkTensor [S (Z.to_nat n); 1%nat] (repeat 1 (S (Z.to_nat n)))), w).

Definition lopsided_run :=
  SNL.__call__ Z Z unit unit randperm Adam train_pass validation_pass
    lopsided_simulate summarize.

Definition after_lopsided_round : snl Z Z unit unit :=
  Eval vm_compute in reached (lopsided_run 30 2 10 fresh).

Lemma dataset_assertion_means_row_mismatch_demo :
  lopsided_run 30 2 10 fresh
  = Some (Raised AssertionError_dataset after_lopsided_round)
  /\ total_rows Z (parameter_bank Z Z unit unit after_lopsided_round)
     = 10%nat
  /\ total_rows Z (observation_bank Z Z unit unit after_lopsided_round)
     = 11%nat
  /\ total_rows Z (parameter_bank Z Z unit unit after_lopsided_round)
     <> total_rows Z (observation_bank Z Z unit unit after_lopsided_round).
Proof.
  split; [vm_compute; reflexivity |].
  split; [reflexivity |]. split; [reflexivity |].
  apply (dataset_assertion_means_row_mismatch Z Z unit unit randperm Adam
           train_pass validation_pass lopsided_simulate summarize
           30 2 10 fresh after_lopsided_round).
  vm_compute. reflexivity.
Defined.


Lemma round_stats_after_fit_demo :
  exists self',
    fit 30 100 lit_5e_4 lit_0_1 20 (simulated 10) = Some (Returned self')
    /\ (forall de sbs nm w,
          round_stats Z Z unit unit (init Z Z unit unit de sbs nm w) = None)
    /\ exists n b,
        round_stats Z Z unit unit self' = Some (n, b)
        /\ 1 <= n
        /\ s_epochs unit (summary Z Z unit unit self')
           = s_epochs unit (summary Z Z unit unit (simulated 10)) ++ [n]
        /\ s_best_validation_log_probs unit (summary Z Z unit unit self')
           = s_best_validation_log_probs unit
               (summary Z Z unit unit (simulated 10)) ++ [b].
Proof.
  eexists. split; [vm_compute; reflexivity |].
  apply (round_stats_after_fit Z Z unit unit randperm Adam train_pass
           validation_pass 30 100 lit_5e_4 lit_0_1 20 (simulated 10)).
  vm_compute. reflexivity.
Defined.

End Demo.
